(** * inexpress: a minimal HTTP server on a TCP socket

    A shallow embedding of the tutorial server of the post "Building a HTTP
    Server From Scratch" ([Request], [Response], [App], [serveStatic] and the
    status and MIME tables), with the properties of its specification.

    Conventions of the embedding.
    - A JavaScript string is the sequence of the bytes of its UTF-8 encoding,
      a Rocq [string].  A [Buffer] is a sequence of bytes as well; the two are
      kept apart by the constructors of [payload].
    - [toLowerCase] and [toUpperCase] change the ASCII letters only, which is
      what JavaScript does on ASCII text.  The program applies them to URL
      path names, which are ASCII, to file extensions and to request methods;
      a property that rests on the case mapping of a method is stated for
      ASCII methods ([ascii_text]).
    - [fs.readFile] refuses a path that holds a NUL byte with an exception
      thrown at the call; every other failure reaches the callback.
    - A call that may throw returns a [result].
    - Objects used as tables keep their own properties in creation order; the
      properties they inherit from [Object.prototype] are visible to the [in]
      operator and to property reads, as in JavaScript. *)

From Stdlib Require Import ZArith NArith Ascii String List Bool Lia DecimalString.
From Stdlib Require Import Sorting.Sorted.
From stdpp Require Import gmap strings.
Import ListNotations.

Local Open Scope Z_scope.

(** ** Exceptions *)

Inductive exn : Type :=
  | ERR_INVALID_URL        (* new URL(...) rejects its input *)
  | ERR_INVALID_ARG_TYPE   (* path.join on a value that is not a string *)
  | ERR_INVALID_ARG_VALUE  (* fs.readFile on a path that holds a NUL byte *)
  | TypeError_undefined    (* a method is called on undefined *)
  | TypeError_not_a_function.

Inductive result (A : Type) : Type :=
  | Ok (a : A)
  | Throw (e : exn).
Arguments Ok {A} a.
Arguments Throw {A} e.

Definition bind {A B : Type} (r : result A) (k : A -> result B) : result B :=
  match r with
  | Ok a => k a
  | Throw e => Throw e
  end.

Notation "'let*' x ':=' r 'in' k" := (bind r (fun x => k))
  (at level 10, x name, r at level 100, k at level 200).

(** ** Characters and strings *)

Definition code (c : ascii) : N := N_of_ascii c.

Definition CRLF : string := String "013" (String "010" "").

Definition is_upper (c : ascii) : bool := ((65 <=? code c) && (code c <=? 90))%N.
Definition is_lower (c : ascii) : bool := ((97 <=? code c) && (code c <=? 122))%N.

Definition lower_char (c : ascii) : ascii :=
  if is_upper c then ascii_of_N (code c + 32) else c.
Definition upper_char (c : ascii) : ascii :=
  if is_lower c then ascii_of_N (code c - 32) else c.

Fixpoint map_string (f : ascii -> ascii) (s : string) : string :=
  match s with
  | EmptyString => EmptyString
  | String c s' => String (f c) (map_string f s')
  end.

Definition toLowerCase : string -> string := map_string lower_char.
Definition toUpperCase : string -> string := map_string upper_char.

(** [s.endsWith(c)] for a one-character [c]. *)
Fixpoint endsWith (s : string) (c : ascii) : bool :=
  match s with
  | EmptyString => false
  | String d EmptyString => Ascii.eqb d c
  | String _ s' => endsWith s' c
  end.

(** [s.slice(0, -1)]. *)
Fixpoint slice_0_m1 (s : string) : string :=
  match s with
  | EmptyString => EmptyString
  | String _ EmptyString => EmptyString
  | String d s' => String d (slice_0_m1 s')
  end.

(** [s.slice(1)]. *)
Definition slice_1 (s : string) : string :=
  match s with
  | EmptyString => EmptyString
  | String _ s' => s'
  end.

(** [a.join(sep)] on an array of strings. *)
Fixpoint join (sep : string) (l : list string) : string :=
  match l with
  | [] => ""
  | [x] => x
  | x :: l' => x +:+ sep +:+ join sep l'
  end.

Fixpoint concat_strings (l : list string) : string :=
  match l with
  | [] => ""
  | x :: l' => x +:+ concat_strings l'
  end.

(** Number to string, for the integers a status code ranges over. *)
Definition Number_toString (n : Z) : string :=
  NilZero.string_of_int (Z.to_int n).

(** ** [Buffer.prototype.toString]: UTF-8 decoding

    Bytes that are not part of a well-formed UTF-8 sequence are replaced by
    U+FFFD, one replacement for each maximal ill-formed prefix.  As strings are
    kept as UTF-8 bytes, the result is the byte sequence of the decoded text. *)

Definition REPLACEMENT : string :=
  String (ascii_of_N 239) (String (ascii_of_N 191) (String (ascii_of_N 189) "")).

(** The decoder is inside a sequence: bytes read so far, continuation bytes
    still needed, and the range allowed for the next byte. *)
Record utf8_pending : Type := {
  seen : string;
  needed : nat;
  lower : N;
  upper : N
}.

Definition utf8_lead (c : ascii) : string * option utf8_pending :=
  let b := code c in
  let one := String c "" in
  (if b <=? 127 then (one, None)
   else if (194 <=? b) && (b <=? 223) then
     ("", Some {| seen := one; needed := 1; lower := 128; upper := 191 |})
   else if (224 <=? b) && (b <=? 239) then
     ("", Some {| seen := one; needed := 2;
                  lower := if b =? 224 then 160 else 128;
                  upper := if b =? 237 then 159 else 191 |})
   else if (240 <=? b) && (b <=? 244) then
     ("", Some {| seen := one; needed := 3;
                  lower := if b =? 240 then 144 else 128;
                  upper := if b =? 244 then 143 else 191 |})
   else (REPLACEMENT, None))%N.

Fixpoint utf8_decode (st : option utf8_pending) (input : string) : string :=
  match input with
  | EmptyString =>
      match st with
      | None => ""
      | Some _ => REPLACEMENT
      end
  | String c rest =>
      match st with
      | None =>
          let (out, st') := utf8_lead c in out +:+ utf8_decode st' rest
      | Some p =>
          if ((lower p <=? code c) && (code c <=? upper p))%N then
            match needed p with
            | S (S n) =>
                utf8_decode (Some {| seen := seen p +:+ String c "";
                                     needed := S n; lower := 128; upper := 191 |}) rest
            | _ => (seen p +:+ String c "") +:+ utf8_decode None rest
            end
          else
            let (out, st') := utf8_lead c in
            REPLACEMENT +:+ out +:+ utf8_decode st' rest
      end
  end.

Definition Buffer_toString (bytes : string) : string := utf8_decode None bytes.

(** What [send] and [sock.write] receive: a string or a [Buffer]. *)
Inductive payload : Type :=
  | Text (s : string)
  | Buffer (bytes : string).

(** The bytes [sock.write(b)] puts on the wire. *)
Definition payload_bytes (b : payload) : string :=
  match b with
  | Text s => s
  | Buffer bytes => bytes
  end.

(** String conversion, as performed by [str + b]. *)
Definition payload_toString (b : payload) : string :=
  match b with
  | Text s => s
  | Buffer bytes => Buffer_toString bytes
  end.

(** ** Objects used as tables

    The value of a property is a string, or one of the values an object
    inherits from [Object.prototype]: [VInherited "constructor"] is the
    function [Object], [VInherited "__proto__"] is [Object.prototype] itself,
    the other names are its methods.  All of them are truthy. *)

Inductive jsval : Type :=
  | VStr (s : string)
  | VInherited (name : string).

Definition Object_prototype_names : list string :=
  [ "constructor"; "__defineGetter__"; "__defineSetter__"; "hasOwnProperty";
    "__lookupGetter__"; "__lookupSetter__"; "isPrototypeOf";
    "propertyIsEnumerable"; "toString"; "valueOf"; "__proto__";
    "toLocaleString" ].

Definition inherited (k : string) : bool :=
  existsb (String.eqb k) Object_prototype_names.

(** Template-literal conversion [`${v}`]. *)
Definition jsval_toString (v : jsval) : string :=
  match v with
  | VStr s => s
  | VInherited name =>
      if String.eqb name "__proto__" then "[object Object]"
      else if String.eqb name "constructor" then "function Object() { [native code] }"
      else "function " +:+ name +:+ "() { [native code] }"
  end.

(** Own properties, in creation order. *)
Definition jsobj : Type := list (string * jsval).

Fixpoint own (k : string) (o : jsobj) : option jsval :=
  match o with
  | [] => None
  | (k', v) :: o' => if String.eqb k' k then Some v else own k o'
  end.

Definition hasOwn (k : string) (o : jsobj) : bool :=
  match own k o with
  | Some _ => true
  | None => false
  end.

(** [k in o] *)
Definition js_in (k : string) (o : jsobj) : bool := hasOwn k o || inherited k.

(** [o[k]], [None] for [undefined]. *)
Definition js_get (k : string) (o : jsobj) : option jsval :=
  match own k o with
  | Some v => Some v
  | None => if inherited k then Some (VInherited k) else None
  end.

Fixpoint define (k : string) (v : jsval) (o : jsobj) : jsobj :=
  match o with
  | [] => [(k, v)]
  | (k', v') :: o' =>
      if String.eqb k' k then (k, v) :: o' else (k', v') :: define k v o'
  end.

(** [o[k] = v].  The name [__proto__] is an accessor of [Object.prototype]:
    assigning to it creates no own property. *)
Definition js_set (k : string) (v : jsval) (o : jsobj) : jsobj :=
  if String.eqb k "__proto__" then o else define k v o.

(** Array indices: canonical decimal numerals below [2^32 - 1]. *)
Definition digit (c : ascii) : option N :=
  (if (48 <=? code c) && (code c <=? 57) then Some (code c - 48) else None)%N.

Fixpoint parse_digits (acc : N) (s : string) : option N :=
  match s with
  | EmptyString => Some acc
  | String c s' =>
      match digit c with
      | Some d => parse_digits (10 * acc + d)%N s'
      | None => None
      end
  end.

Definition array_index (k : string) : option N :=
  match k with
  | EmptyString => None
  | String c rest =>
      match parse_digits 0 k with
      | Some n =>
          if Ascii.eqb c "0" && negb (String.eqb rest "") then None
          else if (n <? 4294967295)%N then Some n else None
      | None => None
      end
  end.

Fixpoint insert_by_index (i : N) (e : string * jsval)
    (l : list (N * (string * jsval))) : list (N * (string * jsval)) :=
  match l with
  | [] => [(i, e)]
  | (j, e') :: l' =>
      if (i <? j)%N then (i, e) :: l else (j, e') :: insert_by_index i e l'
  end.

Fixpoint indexed (o : jsobj) : list (N * (string * jsval)) :=
  match o with
  | [] => []
  | (k, v) :: o' =>
      match array_index k with
      | Some i => insert_by_index i (k, v) (indexed o')
      | None => indexed o'
      end
  end.

Fixpoint named (o : jsobj) : jsobj :=
  match o with
  | [] => []
  | (k, v) :: o' =>
      match array_index k with
      | Some _ => named o'
      | None => (k, v) :: named o'
      end
  end.

(** [Object.entries(o)]: array indices in ascending order, then the other
    names in creation order. *)
Definition Object_entries (o : jsobj) : list (string * jsval) :=
  map snd (indexed o) ++ named o.

(** ** Status codes and MIME types *)

Definition HTTP_STATUS_CODES (statusCode : Z) : option string :=
  if statusCode =? 200 then Some "OK"
  else if statusCode =? 301 then Some "Moved Permanently"
  else if statusCode =? 404 then Some "Not Found"
  else if statusCode =? 500 then Some "Internal Server Error"
  else None.

Definition MIME_TYPES : jsobj :=
  [ ("jpg", VStr "image/jpeg"); ("jpeg", VStr "image/jpeg");
    ("png", VStr "image/png"); ("html", VStr "text/html");
    ("css", VStr "text/css"); ("txt", VStr "text/plain") ].

(** ** The TCP socket: the chunks written so far, and whether it was ended.
    A write after [end] puts nothing on the wire. *)

Record Socket : Type := {
  written : list string;
  ended : bool
}.

Definition fresh_socket : Socket := {| written := []; ended := false |}.

Definition sock_write (data : payload) (s : Socket) : Socket :=
  if ended s then s
  else {| written := written s ++ [payload_bytes data]; ended := false |}.

Definition sock_end (s : Socket) : Socket :=
  {| written := written s; ended := true |}.

(** Everything the socket carried, as one byte sequence. *)
Definition wire (s : Socket) : string := concat_strings (written s).

(** ** The Response class *)

Module Response.

(** [own_status] is the own property [status] of the object, if one was
    assigned; without it the name [status] denotes the method of the class. *)
Record t : Type := {
  statusCode : Z;
  version : string;
  headers : jsobj;
  sock : Socket;
  body : string;
  own_status : option Z
}.

Definition constructor (socket : Socket) (statusCode : Z) (version : string) : t :=
  {| statusCode := statusCode; version := version; headers := [];
     sock := socket; body := ""; own_status := None |}.

(** [new Response(socket)], with the default arguments. *)
Definition new (socket : Socket) : t := constructor socket 200 "HTTP/1.1".

Definition with_headers (h : jsobj) (r : t) : t :=
  {| statusCode := statusCode r; version := version r; headers := h;
     sock := sock r; body := body r; own_status := own_status r |}.

Definition with_sock (s : Socket) (r : t) : t :=
  {| statusCode := statusCode r; version := version r; headers := headers r;
     sock := s; body := body r; own_status := own_status r |}.

Definition with_statusCode (c : Z) (r : t) : t :=
  {| statusCode := c; version := version r; headers := headers r;
     sock := sock r; body := body r; own_status := own_status r |}.

(** [res.status = v] *)
Definition assign_status (v : Z) (r : t) : t :=
  {| statusCode := statusCode r; version := version r; headers := headers r;
     sock := sock r; body := body r; own_status := Some v |}.

Definition set (name : string) (value : jsval) (r : t) : t :=
  with_headers (js_set name value (headers r)) r.

Definition end_ (r : t) : t := with_sock (sock_end (sock r)) r.

Definition write (data : payload) (r : t) : t :=
  with_sock (sock_write data (sock r)) r.

Definition statusLineToString (r : t) : string :=
  join " " [ version r; Number_toString (statusCode r);
             match HTTP_STATUS_CODES (statusCode r) with
             | Some reason => reason
             | None => ""
             end ] +:+ CRLF.

Definition headersToString (r : t) : string :=
  join CRLF
    (map (fun arr => let '(name, val) := arr in
                     name +:+ ": " +:+ jsval_toString val)
         (Object_entries (headers r))) +:+ CRLF.

Definition send (data : payload) (r : t) : t :=
  let r := if js_in "Content-Type" (headers r) then r
           else set "Content-Type" (VStr "text/html") r in
  let r := if statusCode r =? 301 then
             write (Text (((statusLineToString r +:+ headersToString r)
                             +:+ CRLF) +:+ payload_toString data)) r
           else
             let r := write (Text (statusLineToString r)) r in
             let r := write (Text (headersToString r)) r in
             let r := write (Text CRLF) r in
             write data r in
  end_ r.

(** [res.status(statusCode)]: the method, unless an own property hides it. *)
Definition status (c : Z) (r : t) : result t :=
  match own_status r with
  | None => Ok (with_statusCode c r)
  | Some _ => Throw TypeError_not_a_function
  end.

End Response.

(** ** The Request class *)

(** [s.split(sep)] for a one-character separator; [cur] is the piece being
    read. *)
Fixpoint split_from (sep : ascii) (cur : string) (s : string) : list string :=
  match s with
  | EmptyString => [cur]
  | String c s' =>
      if Ascii.eqb c sep then cur :: split_from sep "" s'
      else split_from sep (cur +:+ String c "") s'
  end.

Definition split (sep : ascii) (s : string) : list string := split_from sep "" s.

Module Request.

(** [None] stands for [undefined]: a destructured position the array does
    not have. *)
Record t : Type := {
  method : option string;
  path : option string;
  others : list string
}.

Definition constructor (s : string) : t :=
  let pieces := split " " s in
  {| method := pieces !! 0%nat;
     path := pieces !! 1%nat;
     others := drop 2 pieces |}.

End Request.

(** ** [new URL('http://127.0.0.1' + reqPath).pathname]

    The URL parser of the WHATWG URL Standard on an input that starts with
    [http://127.0.0.1].  The text up to the first [/], [\], [?] or [#] is glued
    onto the host and goes to the host parser; the rest goes through the path
    state, where the characters of the path percent-encode set are encoded,
    [\] counts as [/], and dot segments are resolved.  The path
    percent-encode set is the one of the Node.js releases the server was
    written for: C0 controls, space, the double quote, [#], [<], [>], [?],
    the backquote, [{], [}] and everything above [~]; [^] is left as it
    is. *)

Definition is_C0_or_space (c : ascii) : bool := (code c <=? 32)%N.

Definition is_tab_or_newline (c : ascii) : bool :=
  ((code c =? 9) || (code c =? 10) || (code c =? 13))%N.

(** Trailing C0 controls and spaces are removed from the input (it starts
    with [h], so there are no leading ones). *)
Fixpoint strip_trailing (s : string) : string :=
  match s with
  | EmptyString => EmptyString
  | String c s' =>
      match strip_trailing s' with
      | EmptyString => if is_C0_or_space c then EmptyString else String c EmptyString
      | t => String c t
      end
  end.

Fixpoint remove_tab_newline (s : string) : string :=
  match s with
  | EmptyString => EmptyString
  | String c s' =>
      if is_tab_or_newline c then remove_tab_newline s'
      else String c (remove_tab_newline s')
  end.

Definition is_slash (c : ascii) : bool := Ascii.eqb c "/" || Ascii.eqb c "\".

Definition is_query_or_fragment (c : ascii) : bool :=
  Ascii.eqb c "?" || Ascii.eqb c "#".

(** The authority state reads up to the first [/], [\], [?] or [#]. *)
Fixpoint split_authority (s : string) : string * string :=
  match s with
  | EmptyString => (EmptyString, EmptyString)
  | String c s' =>
      if is_slash c || is_query_or_fragment c then (EmptyString, s)
      else let '(a, r) := split_authority s' in (String c a, r)
  end.

Definition path_percent_encode_set (c : ascii) : bool :=
  let n := code c in
  ((n <=? 31) || (126 <? n) || (n =? 32) || (n =? 34) || (n =? 35) || (n =? 60)
   || (n =? 62) || (n =? 63) || (n =? 96) || (n =? 123) || (n =? 125))%N.

Definition hex_digit (n : N) : ascii :=
  (if n <? 10 then ascii_of_N (48 + n) else ascii_of_N (55 + n))%N.

Definition percent_encode (c : ascii) : string :=
  String "%" (String (hex_digit (code c / 16)) (String (hex_digit (code c mod 16)) "")).

Definition encode_path_char (c : ascii) : string :=
  if path_percent_encode_set c then percent_encode c else String c "".

Definition is_single_dot (segment : string) : bool :=
  let s := toLowerCase segment in
  String.eqb s "." || String.eqb s "%2e".

Definition is_double_dot (segment : string) : bool :=
  let s := toLowerCase segment in
  String.eqb s ".." || String.eqb s ".%2e" || String.eqb s "%2e." || String.eqb s "%2e%2e".

(** Shortening a path removes its last segment, if any. *)
Definition shorten (path : list string) : list string := removelast path.

(** The path state at the end of a segment: [at_slash] holds when the segment
    is ended by [/] or [\], not by [?], [#] or the end of the input. *)
Definition close_segment (buffer : string) (at_slash : bool)
    (path : list string) : list string :=
  if is_double_dot buffer then
    let path := shorten path in
    if at_slash then path else path ++ [""]
  else if is_single_dot buffer then
    if at_slash then path else path ++ [""]
  else path ++ [buffer].

Fixpoint path_state (input : string) (buffer : string)
    (path : list string) : list string :=
  match input with
  | EmptyString => close_segment buffer false path
  | String c rest =>
      if is_slash c then path_state rest "" (close_segment buffer true path)
      else if is_query_or_fragment c then close_segment buffer false path
      else path_state rest (buffer +:+ encode_path_char c) path
  end.

Definition path_start_state (input : string) : list string :=
  match input with
  | EmptyString => path_state input "" []
  | String c rest =>
      if is_slash c then path_state rest "" [] else path_state input "" []
  end.

(** The URL path serializer. *)
Fixpoint serialize_path (path : list string) : string :=
  match path with
  | [] => ""
  | segment :: path' => String "/" segment +:+ serialize_path path'
  end.

(** ** The App class *)

Definition handler : Type := Request.t -> Response.t -> result Response.t.

(** A middleware receives the request, the response and [next].  The [next]
    of the source takes no argument and works on the response object it
    shares with the middleware; here it is given that response as the
    middleware leaves it. *)
Definition middleware_fn : Type :=
  Request.t -> Response.t -> (Response.t -> result Response.t) -> result Response.t.

Record App : Type := {
  routes : gmap string handler;
  middleware : option middleware_fn
}.

(** [new App()] *)
Definition App_new : App := {| routes := ∅; middleware := None |}.

(** String conversion of the right operand of ['http://127.0.0.1' + reqPath]. *)
Definition string_of_operand (v : option string) : string :=
  match v with
  | Some s => s
  | None => "undefined"
  end.

Section Server.

(** The host parser of the platform: whether [127.0.0.1] followed by the text
    before the path (user information, rest of a host name, port) is accepted.
    It is not consulted when that text is empty: the host [127.0.0.1] is
    valid. *)
Variable authority_ok : string -> bool.

Definition URL_pathname (rest : string) : result string :=
  let input := remove_tab_newline (strip_trailing rest) in
  let '(authority, tail) := split_authority input in
  if String.eqb authority "" || authority_ok authority
  then Ok (serialize_path (path_start_state tail))
  else Throw ERR_INVALID_URL.

Definition normalizePath (reqPath : option string) : result string :=
  let* pathname := URL_pathname (string_of_operand reqPath) in
  let p := toLowerCase pathname in
  Ok (if endsWith p "/" then slice_0_m1 p else p).

Definition createRouteKey (method reqPath : option string) : result string :=
  match method with
  | None => Throw TypeError_undefined
  | Some m =>
      let* normalized := normalizePath reqPath in
      Ok (toUpperCase m +:+ " " +:+ normalized)
  end.

(** [key in this.routes] *)
Definition has_route (key : string) (app : App) : bool :=
  bool_decide (is_Some (routes app !! key)) || inherited key.

(** The [None] branch of the call is for a key that names a property the
    table inherits and does not own; a route key holds a space and is never
    such a name (lemma [route_key_own]). *)
Definition processRoutes (app : App) (req : Request.t) (res : Response.t)
    : result Response.t :=
  let* key := createRouteKey (Request.method req) (Request.path req) in
  if has_route key app then
    match routes app !! key with
    | Some callback => callback req res
    | None => Throw TypeError_not_a_function
    end
  else
    let res := Response.assign_status 404 res in
    Ok (Response.send (Text "Page not found") res).

Definition handleRequest (app : App) (sock : Socket) (binaryData : string)
    : result Response.t :=
  let req := Request.constructor (Buffer_toString binaryData) in
  let res := Response.new sock in
  match middleware app with
  | Some mw => mw req res (fun res' => processRoutes app req res')
  | None => processRoutes app req res
  end.

Definition get (reqPath : string) (callback : handler) (app : App) : result App :=
  let* key := createRouteKey (Some "GET") (Some reqPath) in
  Ok {| routes := <[key := callback]> (routes app); middleware := middleware app |}.

Definition use (cb : middleware_fn) (app : App) : App :=
  {| routes := routes app; middleware := Some cb |}.

End Server.

(** ** [path.posix.join] and [path.extname] (POSIX) *)

(** Segments of a path, resolved as [path.posix.normalize] does: empty and [.]
    segments are dropped, [..] removes the segment before it or, in a relative
    path, stays when there is nothing to remove.  [res] is the result so far,
    last segment first. *)
Fixpoint normalize_segments (allowAboveRoot : bool) (segments res : list string)
    : list string :=
  match segments with
  | [] => rev res
  | seg :: segments' =>
      if String.eqb seg "" || String.eqb seg "." then
        normalize_segments allowAboveRoot segments' res
      else if String.eqb seg ".." then
        match res with
        | last :: res' =>
            if String.eqb last ".." then
              normalize_segments allowAboveRoot segments'
                (if allowAboveRoot then ".." :: res else res)
            else normalize_segments allowAboveRoot segments' res'
        | [] =>
            normalize_segments allowAboveRoot segments'
              (if allowAboveRoot then [".."] else [])
        end
      else normalize_segments allowAboveRoot segments' (seg :: res)
  end.

Definition starts_with_slash (s : string) : bool :=
  match s with
  | String c _ => Ascii.eqb c "/"
  | EmptyString => false
  end.

Definition path_posix_normalize (p : string) : string :=
  if String.eqb p "" then "."
  else
    let isAbsolute := starts_with_slash p in
    let trailingSeparator := endsWith p "/" in
    let body := join "/" (normalize_segments (negb isAbsolute) (split "/" p) []) in
    if String.eqb body "" then
      if isAbsolute then "/" else if trailingSeparator then "./" else "."
    else
      let body := if trailingSeparator then body +:+ "/" else body in
      if isAbsolute then String "/" body else body.

(** [path.posix.join(a, b)]; an argument that is not a string is refused. *)
Definition path_posix_join (a : string) (b : option string) : result string :=
  match b with
  | None => Throw ERR_INVALID_ARG_TYPE
  | Some b =>
      let args := filter (fun arg => arg ≠ "") [a; b] in
      match args with
      | [] => Ok "."
      | _ => Ok (path_posix_normalize (join "/" args))
      end
  end.

(** The scan of [path.extname], from the last character to the first. *)
Record extname_state : Type := {
  startDot : option nat;
  startPart : nat;
  end_ : option nat;
  matchedSlash : bool;
  preDotState : Z;
  stopped : bool
}.

Definition extname_init : extname_state :=
  {| startDot := None; startPart := 0; end_ := None; matchedSlash := true;
     preDotState := 0; stopped := false |}.

Definition extname_step (st : extname_state) (ic : nat * ascii) : extname_state :=
  let '(i, c) := ic in
  if stopped st then st
  else if Ascii.eqb c "/" then
    if negb (matchedSlash st) then
      {| startDot := startDot st; startPart := i + 1; end_ := end_ st;
         matchedSlash := matchedSlash st; preDotState := preDotState st;
         stopped := true |}
    else st
  else
    let st :=
      match end_ st with
      | None =>
          {| startDot := startDot st; startPart := startPart st; end_ := Some (i + 1)%nat;
             matchedSlash := false; preDotState := preDotState st; stopped := false |}
      | Some _ => st
      end in
    if Ascii.eqb c "." then
      match startDot st with
      | None =>
          {| startDot := Some i; startPart := startPart st; end_ := end_ st;
             matchedSlash := matchedSlash st; preDotState := preDotState st;
             stopped := false |}
      | Some _ =>
          {| startDot := startDot st; startPart := startPart st; end_ := end_ st;
             matchedSlash := matchedSlash st; preDotState := 1; stopped := false |}
      end
    else
      match startDot st with
      | Some _ =>
          {| startDot := startDot st; startPart := startPart st; end_ := end_ st;
             matchedSlash := matchedSlash st; preDotState := -1; stopped := false |}
      | None => st
      end.

Definition with_index (s : string) : list (nat * ascii) :=
  let chars := list_ascii_of_string s in
  combine (seq 0 (length chars)) chars.

Definition path_extname (p : string) : string :=
  let st := fold_left extname_step (rev (with_index p)) extname_init in
  match startDot st, end_ st with
  | Some sd, Some e =>
      if (preDotState st =? 0)
         || ((preDotState st =? 1) && (sd =? e - 1)%nat && (sd =? startPart st + 1)%nat)
      then ""
      else String.substring sd (e - sd) p
  | _, _ => ""
  end.

Definition getExtension (fileName : string) : string :=
  slice_1 (toLowerCase (path_extname fileName)).

(** [VStr ""] is the only falsy value. *)
Definition truthy (v : option jsval) : bool :=
  match v with
  | Some (VStr s) => negb (String.eqb s "")
  | Some (VInherited _) => true
  | None => false
  end.

Definition getMIMEType (fileName : string) : jsval :=
  if truthy (js_get (getExtension fileName) MIME_TYPES) then
    match js_get (getExtension fileName) MIME_TYPES with
    | Some v => v
    | None => VStr ""
    end
  else VStr "".

(** ** The static-file middleware

    The file system is given by what a read hands to the callback of
    [fs.readFile]: [None] for an error, the bytes of the file otherwise. *)

Definition FileSystem : Type := string -> option string.

Fixpoint holds_NUL (s : string) : bool :=
  match s with
  | EmptyString => false
  | String c s' => (code c =? 0)%N || holds_NUL s'
  end.

(** [fs.readFile(filePath, cb)]: a path that holds a NUL byte is refused with
    an exception, before anything is read and without a call of [cb];
    otherwise [cb] receives the error or the data. *)
Definition readFile (fs : FileSystem) (filePath : string) : result (option string) :=
  if holds_NUL filePath then Throw ERR_INVALID_ARG_VALUE else Ok (fs filePath).

Definition serveStatic (fs : FileSystem) (basePath : string) : middleware_fn :=
  fun req res next =>
    let* filePath := path_posix_join basePath (Request.path req) in
    let* outcome := readFile fs filePath in
    match outcome with
    | None => next res
    | Some data =>
        let res := Response.set "Content-Type" (getMIMEType filePath) res in
        Ok (Response.send (Buffer data) res)
    end.

(** ** Notions used to state the properties *)

(** The first step of [send]: [Content-Type] defaults to [text/html]. *)
Definition with_default_content_type (r : Response.t) : Response.t :=
  if js_in "Content-Type" (Response.headers r) then r
  else Response.set "Content-Type" (VStr "text/html") r.

(** The four chunks that [send] writes one by one when the status code is not
    301: status line, headers, blank line, body. *)
Definition separate_writes (data : payload) (r : Response.t) : list string :=
  let r := with_default_content_type r in
  [ Response.statusLineToString r; Response.headersToString r; CRLF;
    payload_bytes data ].

(** The request parser in the words of the specification, to compare with
    [Request.constructor]: the text is cut at every ASCII whitespace character
    (tab, line feed, form feed, carriage return, space). *)
Definition is_ascii_whitespace (c : ascii) : bool :=
  ((code c =? 9) || (code c =? 10) || (code c =? 12) || (code c =? 13)
   || (code c =? 32))%N.

Fixpoint split_whitespace_from (cur : string) (s : string) : list string :=
  match s with
  | EmptyString => [cur]
  | String c s' =>
      if is_ascii_whitespace c then cur :: split_whitespace_from "" s'
      else split_whitespace_from (cur +:+ String c "") s'
  end.

Definition Request_split_on_whitespace (s : string) : Request.t :=
  let tokens := split_whitespace_from "" s in
  {| Request.method := tokens !! 0%nat;
     Request.path := tokens !! 1%nat;
     Request.others := drop 2 tokens |}.

(** A string without the character [c]. *)
Fixpoint lacks (c : ascii) (s : string) : bool :=
  match s with
  | EmptyString => true
  | String d s' => negb (Ascii.eqb d c) && lacks c s'
  end.

(** The last step of [normalizePath]. *)
Definition strip_one_slash (p : string) : string :=
  if endsWith p "/" then slice_0_m1 p else p.

(** Characters the path state copies as they are: no separator, no start of
    a query or fragment, none of the path percent-encode set. *)
Definition plain_char (c : ascii) : bool :=
  negb (is_slash c) && negb (is_query_or_fragment c)
  && negb (path_percent_encode_set c).

Fixpoint all_chars (p : ascii -> bool) (s : string) : bool :=
  match s with
  | EmptyString => true
  | String c s' => p c && all_chars p s'
  end.

(** A segment as the URL parser leaves it: plain characters, and no dot
    segment. *)
Definition settled (segment : string) : bool :=
  all_chars plain_char segment
  && negb (is_single_dot segment) && negb (is_double_dot segment).

(** The characters of a serialized path of settled segments. *)
Definition path_char (c : ascii) : bool := plain_char c || Ascii.eqb c "/".

(** A settled segment that lower-casing leaves as it is. *)
Definition lower_settled (s : string) : Prop :=
  settled s = true /\ toLowerCase s = s.

(** Case analysis on the 256 characters. *)
Ltac each_char c := destruct c as [[] [] [] [] [] [] [] []].

(** Registering GET handlers one after the other, as the calls of [get] that
    set an application up. *)
Fixpoint get_all (authority_ok : string -> bool)
    (registrations : list (string * handler)) (app : App) : result App :=
  match registrations with
  | [] => Ok app
  | (reqPath, callback) :: registrations' =>
      let* app' := get authority_ok reqPath callback app in
      get_all authority_ok registrations' app'
  end.

(** One header as it goes on the wire. *)
Definition header_line (entry : string * jsval) : string :=
  entry.1 +:+ ": " +:+ jsval_toString entry.2 +:+ CRLF.

(** The reason phrase of a status code, empty for a code the table lacks. *)
Definition reason_phrase (statusCode : Z) : string :=
  match HTTP_STATUS_CODES statusCode with
  | Some reason => reason
  | None => ""
  end.

(** The path state after it has read [input], for an input without [?] and
    [#]: the buffer and the path so far. *)
Fixpoint path_scan (input buffer : string) (path : list string)
    : string * list string :=
  match input with
  | EmptyString => (buffer, path)
  | String c rest =>
      if is_slash c then path_scan rest "" (close_segment buffer true path)
      else path_scan rest (buffer +:+ encode_path_char c) path
  end.

(** Characters of a request path without query or fragment: no space, no
    control character, no [?], no [#]. *)
Definition path_text_char (c : ascii) : bool :=
  negb (is_C0_or_space c) && negb (is_query_or_fragment c).

(** The name of a file or directory: not empty, without a slash or a NUL
    byte (no file system has such names), and neither [.] nor [..]. *)
Definition file_name (s : string) : bool :=
  negb (String.eqb s "") && lacks "/" s && negb (holds_NUL s)
  && negb (String.eqb s ".") && negb (String.eqb s "..").

(** ** The tags page: [sortedTags]

    [Object.keys(tags).sort((a, b) => tags[b] - tags[a])] *)

Module Tags.

(** The object [tags]: each tag with the number of posts that carry it, own
    properties in creation order. *)
Definition counts : Type := list (string * Z).

(** [tags[tag]], [None] for [undefined]. *)
Fixpoint count (tag : string) (tags : counts) : option Z :=
  match tags with
  | [] => None
  | (k, n) :: tags' => if String.eqb k tag then Some n else count tag tags'
  end.

Fixpoint insert_key (i : N) (k : string) (l : list (N * string)) : list (N * string) :=
  match l with
  | [] => [(i, k)]
  | (j, k') :: l' => if (i <? j)%N then (i, k) :: l else (j, k') :: insert_key i k l'
  end.

Fixpoint index_keys (tags : counts) : list (N * string) :=
  match tags with
  | [] => []
  | (k, _) :: tags' =>
      match array_index k with
      | Some i => insert_key i k (index_keys tags')
      | None => index_keys tags'
      end
  end.

Fixpoint named_keys (tags : counts) : list string :=
  match tags with
  | [] => []
  | (k, _) :: tags' =>
      match array_index k with
      | Some _ => named_keys tags'
      | None => k :: named_keys tags'
      end
  end.

(** [Object.keys(tags)]: array indices in ascending order, then the other
    names in creation order. *)
Definition Object_keys (tags : counts) : list string :=
  map snd (index_keys tags) ++ named_keys tags.

(** The comparator [(a, b) => tags[b] - tags[a]]; a difference that is not
    a number counts as 0. *)
Definition compare (tags : counts) (a b : string) : Z :=
  match count b tags, count a tags with
  | Some nb, Some na => nb - na
  | _, _ => 0
  end.

(** [Array.prototype.sort] with a comparator: a stable sort, here by
    insertion from the right. *)
Fixpoint sort_insert (cmp : string -> string -> Z) (x : string) (l : list string)
    : list string :=
  match l with
  | [] => [x]
  | y :: l' => if cmp x y <=? 0 then x :: l else y :: sort_insert cmp x l'
  end.

Definition Array_sort (cmp : string -> string -> Z) (l : list string) : list string :=
  fold_right (sort_insert cmp) [] l.

Definition sortedTags (tags : counts) : list string :=
  Array_sort (compare tags) (Object_keys tags).

End Tags.

(** The count of a tag, 0 for a tag the object lacks. *)
Definition count_of (tags : Tags.counts) (tag : string) : Z :=
  match Tags.count tag tags with
  | Some n => n
  | None => 0
  end.

(** A text of ASCII characters only; on such a text the upper-casing and
    lower-casing of the program change the letters [a] to [z] and [A] to [Z]
    and nothing else. *)
Definition ascii_text (s : string) : bool :=
  all_chars (fun c => (code c <? 128)%N) s.

(** * Properties *)

(** ** Strings *)

Lemma app_cons (c : ascii) (s t : string) : String c s +:+ t = String c (s +:+ t).
Proof. reflexivity. Qed.

Lemma app_empty_l (s : string) : "" +:+ s = s.
Proof. reflexivity. Qed.

Lemma app_empty_r (s : string) : s +:+ "" = s.
Proof. induction s as [|c s IH]; [reflexivity|]. rewrite app_cons, IH. reflexivity. Qed.

Lemma app_assoc_str (s t u : string) : (s +:+ t) +:+ u = s +:+ (t +:+ u).
Proof.
  induction s as [|c s IH]; [reflexivity|].
  rewrite !app_cons, IH. reflexivity.
Qed.

Lemma concat_strings_app (l1 l2 : list string) :
  concat_strings (l1 ++ l2) = concat_strings l1 +:+ concat_strings l2.
Proof.
  induction l1 as [|x l1 IH]; simpl; [reflexivity|].
  rewrite IH, app_assoc_str. reflexivity.
Qed.

(** ** The response writer *)

Lemma with_default_content_type_frame (r : Response.t) :
  Response.statusCode (with_default_content_type r) = Response.statusCode r
  /\ Response.version (with_default_content_type r) = Response.version r
  /\ Response.sock (with_default_content_type r) = Response.sock r
  /\ Response.body (with_default_content_type r) = Response.body r
  /\ Response.own_status (with_default_content_type r) = Response.own_status r.
Proof.
  unfold with_default_content_type.
  destruct (js_in "Content-Type" (Response.headers r)); repeat split; reflexivity.
Qed.

(** What [send] leaves on the socket, in the two branches. *)
Lemma send_sock (data : payload) (r : Response.t) :
  Response.sock (Response.send data r) =
  let r' := with_default_content_type r in
  sock_end
    (if Response.statusCode r =? 301 then
       sock_write (Text (((Response.statusLineToString r' +:+ Response.headersToString r')
                            +:+ CRLF) +:+ payload_toString data)) (Response.sock r)
     else
       sock_write data
         (sock_write (Text CRLF)
            (sock_write (Text (Response.headersToString r'))
               (sock_write (Text (Response.statusLineToString r')) (Response.sock r))))).
Proof.
  unfold Response.send. fold (with_default_content_type r).
  destruct (with_default_content_type_frame r) as (Hc & _ & Hs & _).
  cbv zeta. rewrite Hc, <- Hs.
  destruct (Response.statusCode r =? 301); reflexivity.
Qed.

Lemma send_written_separately (data : payload) (r : Response.t) :
  Response.statusCode r <> 301 ->
  ended (Response.sock r) = false ->
  written (Response.sock (Response.send data r))
  = written (Response.sock r) ++ separate_writes data r.
Proof.
  intros Hc He. rewrite send_sock. cbv zeta.
  apply Z.eqb_neq in Hc. rewrite Hc.
  unfold sock_write, sock_end. cbn. rewrite He. cbn.
  unfold separate_writes. cbv zeta.
  rewrite <- !app_assoc. reflexivity.
Qed.

Lemma send_written_at_once (data : payload) (r : Response.t) :
  Response.statusCode r = 301 ->
  ended (Response.sock r) = false ->
  written (Response.sock (Response.send data r))
  = written (Response.sock r)
    ++ [ let r' := with_default_content_type r in
         ((Response.statusLineToString r' +:+ Response.headersToString r')
            +:+ CRLF) +:+ payload_toString data ].
Proof.
  intros Hc He. rewrite send_sock. cbv zeta.
  apply Z.eqb_eq in Hc. rewrite Hc.
  unfold sock_write, sock_end. cbn. rewrite He. reflexivity.
Qed.

Lemma send_ends (data : payload) (r : Response.t) :
  ended (Response.sock (Response.send data r)) = true.
Proof. rewrite send_sock. reflexivity. Qed.

Lemma send_fields (data : payload) (r : Response.t) :
  Response.statusCode (Response.send data r) = Response.statusCode r
  /\ Response.version (Response.send data r) = Response.version r
  /\ Response.headers (Response.send data r)
     = Response.headers (with_default_content_type r)
  /\ Response.body (Response.send data r) = Response.body r
  /\ Response.own_status (Response.send data r) = Response.own_status r.
Proof.
  unfold Response.send, with_default_content_type.
  destruct (js_in "Content-Type" (Response.headers r)); cbv zeta;
    match goal with |- context [if ?b then _ else _] => destruct b end;
    repeat split; reflexivity.
Qed.

Lemma define_absent (k : string) (v : jsval) (o : jsobj) :
  own k o = None -> define k v o = o ++ [(k, v)].
Proof.
  induction o as [|[k' v'] o IH]; simpl; [reflexivity|].
  destruct (String.eqb k' k); [discriminate|].
  intros H. rewrite IH by exact H. reflexivity.
Qed.

Lemma own_app_l (k : string) (v : jsval) (o o' : jsobj) :
  own k o = Some v -> own k (o ++ o') = Some v.
Proof.
  induction o as [|[k' v'] o IH]; simpl; [discriminate|].
  destruct (String.eqb k' k); auto.
Qed.

Lemma default_content_type_headers (r : Response.t) :
  Response.headers (with_default_content_type r) =
  if hasOwn "Content-Type" (Response.headers r) then Response.headers r
  else Response.headers r ++ [("Content-Type", VStr "text/html")].
Proof.
  unfold with_default_content_type, js_in.
  change (inherited "Content-Type") with false. rewrite orb_false_r.
  unfold hasOwn.
  destruct (own "Content-Type" (Response.headers r)) eqn:E; [reflexivity|].
  cbn. unfold js_set. change ("Content-Type" =? "__proto__")%string with false.
  cbv iota. apply define_absent, E.
Qed.

(** C4.  A response made with the default status and version, then
    [set('X-Test','1')], [status(200)] and [send('hello')], puts on the
    connection the status line, the two headers in the order they were set
    ([X-Test] first, the defaulted [Content-Type] second), a blank line and the
    body, that is the bytes
    [HTTP/1.1 200 OK\r\nX-Test: 1\r\nContent-Type: text/html\r\n\r\nhello],
    after whatever the connection carried before, and ends the connection. *)
Theorem response_serialization (s : Socket) :
  ended s = false ->
  exists r,
    Response.status 200 (Response.set "X-Test" (VStr "1") (Response.new s)) = Ok r
    /\ wire (Response.sock (Response.send (Text "hello") r))
       = wire s +:+ ("HTTP/1.1 200 OK" +:+ CRLF +:+ "X-Test: 1" +:+ CRLF
                     +:+ "Content-Type: text/html" +:+ CRLF +:+ CRLF +:+ "hello")
    /\ written (Response.sock (Response.send (Text "hello") r))
       = written s ++ [ "HTTP/1.1 200 OK" +:+ CRLF;
                        "X-Test: 1" +:+ CRLF +:+ "Content-Type: text/html" +:+ CRLF;
                        CRLF; "hello" ]
    /\ Object_entries (Response.headers (Response.send (Text "hello") r))
       = [("X-Test", VStr "1"); ("Content-Type", VStr "text/html")]
    /\ ended (Response.sock (Response.send (Text "hello") r)) = true.
Proof.
  intros He. eexists. split; [reflexivity|].
  assert (Hw : written (Response.sock (Response.send (Text "hello")
                 (Response.with_statusCode 200
                    (Response.set "X-Test" (VStr "1") (Response.new s)))))
               = written s ++ [ "HTTP/1.1 200 OK" +:+ CRLF;
                        "X-Test: 1" +:+ CRLF +:+ "Content-Type: text/html" +:+ CRLF;
                        CRLF; "hello" ]).
  { rewrite send_written_separately; [reflexivity | discriminate | exact He]. }
  split; [|split; [exact Hw|split; [reflexivity|apply send_ends]]].
  unfold wire. rewrite Hw, concat_strings_app. reflexivity.
Qed.

Lemma response_serialization_on_a_fresh_connection :
  ended fresh_socket = false
  /\ exists r,
    Response.status 200
      (Response.set "X-Test" (VStr "1") (Response.new fresh_socket)) = Ok r
    /\ wire (Response.sock (Response.send (Text "hello") r))
       = wire fresh_socket
         +:+ ("HTTP/1.1 200 OK" +:+ CRLF +:+ "X-Test: 1" +:+ CRLF
              +:+ "Content-Type: text/html" +:+ CRLF +:+ CRLF +:+ "hello")
    /\ written (Response.sock (Response.send (Text "hello") r))
       = written fresh_socket
         ++ [ "HTTP/1.1 200 OK" +:+ CRLF;
              "X-Test: 1" +:+ CRLF +:+ "Content-Type: text/html" +:+ CRLF;
              CRLF; "hello" ]
    /\ Object_entries (Response.headers (Response.send (Text "hello") r))
       = [("X-Test", VStr "1"); ("Content-Type", VStr "text/html")]
    /\ ended (Response.sock (Response.send (Text "hello") r)) = true.
Proof.
  split; [reflexivity|].
  apply (response_serialization fresh_socket). reflexivity.
Defined.

(** C9.  [send] leaves the status code, the version, the [body] field and the
    [status] property as they were, and every header that was set keeps its
    value; the headers change only by a new last entry [Content-Type:
    text/html] when the response had no [Content-Type].  (The writes go to
    the socket the [sock] field refers to.) *)
Theorem send_frame (data : payload) (r : Response.t) :
  let r' := Response.send data r in
  Response.statusCode r' = Response.statusCode r
  /\ Response.version r' = Response.version r
  /\ Response.body r' = Response.body r
  /\ Response.own_status r' = Response.own_status r
  /\ (forall name v, own name (Response.headers r) = Some v ->
                     own name (Response.headers r') = Some v)
  /\ Response.headers r' =
       if hasOwn "Content-Type" (Response.headers r) then Response.headers r
       else Response.headers r ++ [("Content-Type", VStr "text/html")].
Proof.
  cbv zeta.
  destruct (send_fields data r) as (Hc & Hv & Hh & Hb & Ho).
  pose proof (default_content_type_headers r) as Hhd.
  repeat split; try assumption.
  - intros name v H. rewrite Hh, Hhd.
    destruct (hasOwn "Content-Type" (Response.headers r)); [exact H|].
    apply own_app_l, H.
  - rewrite Hh. exact Hhd.
Qed.

(** For a body that string conversion leaves as it is, the one chunk of the
    301 branch is the concatenation of the four chunks of the other branch. *)
Lemma at_once_is_concat (data : payload) (r : Response.t) :
  payload_toString data = payload_bytes data ->
  (let r' := with_default_content_type r in
   ((Response.statusLineToString r' +:+ Response.headersToString r')
      +:+ CRLF) +:+ payload_toString data)
  = concat_strings (separate_writes data r).
Proof.
  intros Hd. cbv zeta. unfold separate_writes, concat_strings.
  rewrite Hd, app_empty_r, !app_assoc_str. reflexivity.
Qed.

(** With status code 301 and a body that string conversion leaves as it is,
    [send] performs one write of the concatenation of the four chunks. *)
Lemma redirect_single_write (data : payload) (r : Response.t) :
  Response.statusCode r = 301 ->
  ended (Response.sock r) = false ->
  payload_toString data = payload_bytes data ->
  written (Response.sock (Response.send data r))
  = written (Response.sock r) ++ [concat_strings (separate_writes data r)].
Proof.
  intros Hc He Hd.
  rewrite send_written_at_once by assumption.
  rewrite at_once_is_concat by assumption. reflexivity.
Qed.

(** The redirect path on a string body.  With status code 301 and a body that
    is a string, [send] performs one write, and what it writes is the
    concatenation of the four chunks (status line, headers, blank line, body)
    that the branch for the other status codes writes for the same
    response. *)
Theorem redirect_text_single_write (body : string) (r : Response.t) :
  Response.statusCode r = 301 ->
  ended (Response.sock r) = false ->
  written (Response.sock (Response.send (Text body) r))
  = written (Response.sock r) ++ [concat_strings (separate_writes (Text body) r)].
Proof.
  intros Hc He. apply redirect_single_write; [exact Hc | exact He | reflexivity].
Qed.

Lemma redirect_single_write_to_gallery :
  let r := Response.with_statusCode 301
             (Response.set "Location" (VStr "/gallery") (Response.new fresh_socket)) in
  written (Response.sock (Response.send (Text "Redirecting") r))
  = written (Response.sock r)
    ++ [concat_strings (separate_writes (Text "Redirecting") r)].
Proof.
  cbv zeta. apply redirect_text_single_write; reflexivity.
Defined.

(** C8 does not hold of the code.  With status 301 the whole payload is built
    by string concatenation, which converts a [Buffer] body to a string,
    while the branch for the other status codes writes the body as it is.
    For a [Buffer] that is not well-formed UTF-8 the two differ: the byte
    [0xFF] reaches the wire as the three bytes of U+FFFD, where the four
    separate writes carry the byte itself. *)
Theorem redirect_buffer_body_differs :
  let r := Response.constructor fresh_socket 301 "HTTP/1.1" in
  let data := Buffer (String (ascii_of_N 255) "") in
  Response.statusCode r = 301
  /\ written (Response.sock (Response.send data r))
     = [ "HTTP/1.1 301 Moved Permanently" +:+ CRLF +:+ "Content-Type: text/html"
         +:+ CRLF +:+ CRLF +:+ REPLACEMENT ]
  /\ concat_strings (separate_writes data r)
     = "HTTP/1.1 301 Moved Permanently" +:+ CRLF +:+ "Content-Type: text/html"
       +:+ CRLF +:+ CRLF +:+ String (ascii_of_N 255) ""
  /\ written (Response.sock (Response.send data r))
     <> [concat_strings (separate_writes data r)].
Proof.
  cbv zeta. repeat split; try reflexivity.
  vm_compute. discriminate.
Qed.

(** ** The request parser *)

Lemma split_from_not_nil (sep : ascii) (cur s : string) : split_from sep cur s <> [].
Proof.
  revert cur. induction s as [|c s IH]; intros cur; simpl; [discriminate|].
  destruct (Ascii.eqb c sep); [discriminate | apply IH].
Qed.

Lemma join_cons (sep x : string) (l : list string) :
  l <> [] -> join sep (x :: l) = x +:+ sep +:+ join sep l.
Proof. destruct l; [congruence | reflexivity]. Qed.

(** Joining the pieces with the separator gives the text back. *)
Lemma join_split_from (sep : ascii) (cur s : string) :
  join (String sep "") (split_from sep cur s) = cur +:+ s.
Proof.
  revert cur. induction s as [|c s IH]; intros cur; simpl.
  - symmetry. apply app_empty_r.
  - destruct (Ascii.eqb_spec c sep) as [->|Hne].
    + rewrite join_cons by apply split_from_not_nil.
      rewrite IH. reflexivity.
    + rewrite IH, app_assoc_str. reflexivity.
Qed.

Lemma lacks_app (c : ascii) (s t : string) :
  lacks c (s +:+ t) = lacks c s && lacks c t.
Proof.
  induction s as [|d s IH]; [reflexivity|].
  rewrite app_cons. simpl. rewrite IH, andb_assoc. reflexivity.
Qed.

(** No piece holds the separator. *)
Lemma split_from_lacks (sep : ascii) (cur s : string) :
  lacks sep cur = true ->
  Forall (fun piece => lacks sep piece = true) (split_from sep cur s).
Proof.
  revert cur. induction s as [|c s IH]; intros cur Hcur; simpl.
  - constructor; [exact Hcur | constructor].
  - destruct (Ascii.eqb c sep) eqn:E.
    + constructor; [exact Hcur | apply IH; reflexivity].
    + apply IH. rewrite lacks_app, Hcur. simpl. rewrite E. reflexivity.
Qed.

Lemma split_from_app (sep : ascii) (cur x s : string) :
  lacks sep x = true ->
  split_from sep cur (x +:+ s) = split_from sep (cur +:+ x) s.
Proof.
  revert cur. induction x as [|d x IH]; intros cur Hx.
  - rewrite app_empty_r. reflexivity.
  - simpl in Hx. apply andb_prop in Hx as [Hd Hx].
    rewrite app_cons. simpl.
    apply negb_true_iff in Hd. rewrite Hd.
    rewrite IH by exact Hx. rewrite app_assoc_str. reflexivity.
Qed.

(** The pieces are the only way to cut the text at the separator. *)
Lemma split_unique (sep : ascii) (l : list string) :
  l <> [] ->
  Forall (fun piece => lacks sep piece = true) l ->
  split sep (join (String sep "") l) = l.
Proof.
  unfold split. induction l as [|x l IH]; [congruence|].
  intros _ Hl. inversion Hl as [|? ? Hx Hl']; subst.
  destruct l as [|y l].
  - simpl join. rewrite <- (app_empty_r x) at 1.
    rewrite split_from_app by exact Hx. reflexivity.
  - rewrite join_cons by discriminate.
    rewrite split_from_app by exact Hx.
    rewrite app_cons. simpl split_from. rewrite Ascii.eqb_refl.
    rewrite app_empty_l. f_equal. apply IH; [discriminate | exact Hl'].
Qed.

(** C3, as amended.  The constructor cuts the text at every space character
    U+0020 and nowhere else: the pieces hold no space, joined by single spaces
    they give the text back, and they are the only such pieces.  The first
    piece is the method (there always is one), the second the path
    ([undefined] when there is none), the rest are kept in order as
    [others]. *)
Theorem request_split_on_space (s : string) :
  let pieces := split " " s in
  Request.method (Request.constructor s) = pieces !! 0%nat
  /\ Request.path (Request.constructor s) = pieces !! 1%nat
  /\ Request.others (Request.constructor s) = drop 2 pieces
  /\ is_Some (Request.method (Request.constructor s))
  /\ join " " pieces = s
  /\ Forall (fun piece => lacks " " piece = true) pieces
  /\ (forall l, l <> [] -> Forall (fun piece => lacks " " piece = true) l ->
                join " " l = s -> l = pieces).
Proof.
  cbv zeta. repeat split.
  - unfold Request.constructor, split. simpl.
    destruct (split_from " " "" s) eqn:E; [|eauto].
    exfalso. exact (split_from_not_nil _ _ _ E).
  - unfold split. rewrite join_split_from. reflexivity.
  - apply split_from_lacks. reflexivity.
  - intros l Hne Hl <-. symmetry. apply split_unique; assumption.
Qed.

(** C3 as stated fails: a carriage return, a line feed or a tab does not end
    a piece.  On a request with a header line, the whitespace reading of the
    specification gives other remaining tokens; on a tab-separated request
    it gives another method and path. *)
Lemma request_not_split_on_whitespace :
  let s := "GET /a HTTP/1.1" +:+ CRLF +:+ "Host: x" in
  let t := "GET" +:+ String "009" "/a" in
  Request.others (Request.constructor s) = ["HTTP/1.1" +:+ CRLF +:+ "Host:"; "x"]
  /\ Request.others (Request_split_on_whitespace s) = ["HTTP/1.1"; ""; "Host:"; "x"]
  /\ Request.constructor s <> Request_split_on_whitespace s
  /\ Request.method (Request.constructor t) = Some t
  /\ Request.path (Request.constructor t) = None
  /\ Request.method (Request_split_on_whitespace t) = Some "GET"
  /\ Request.path (Request_split_on_whitespace t) = Some "/a".
Proof.
  cbv zeta. repeat split; try reflexivity.
  vm_compute. discriminate.
Qed.

(** ** Path normalization *)

Lemma plain_char_copied (c : ascii) :
  plain_char c = true ->
  is_slash c = false /\ is_query_or_fragment c = false
  /\ encode_path_char c = String c "".
Proof. each_char c; intros H; try discriminate H; repeat split. Qed.

Lemma plain_char_visible (c : ascii) :
  plain_char c = true -> is_C0_or_space c = false /\ is_tab_or_newline c = false.
Proof. each_char c; intros H; try discriminate H; repeat split. Qed.

Lemma plain_char_lower (c : ascii) :
  plain_char c = true -> plain_char (lower_char c) = true.
Proof. each_char c; intros H; try discriminate H; reflexivity. Qed.

Lemma lower_char_idem (c : ascii) : lower_char (lower_char c) = lower_char c.
Proof. each_char c; reflexivity. Qed.

Lemma encode_path_char_plain (c : ascii) :
  is_slash c = false -> is_query_or_fragment c = false ->
  all_chars plain_char (encode_path_char c) = true.
Proof. each_char c; intros H1 H2; try discriminate H1; try discriminate H2; reflexivity. Qed.

Lemma path_char_visible (c : ascii) :
  path_char c = true -> is_C0_or_space c = false /\ is_tab_or_newline c = false.
Proof. each_char c; intros H; try discriminate H; repeat split. Qed.

Lemma all_chars_app (p : ascii -> bool) (s t : string) :
  all_chars p (s +:+ t) = all_chars p s && all_chars p t.
Proof.
  induction s as [|c s IH]; [reflexivity|].
  rewrite app_cons. simpl. rewrite IH, andb_assoc. reflexivity.
Qed.

Lemma toLowerCase_app (s t : string) :
  toLowerCase (s +:+ t) = toLowerCase s +:+ toLowerCase t.
Proof.
  induction s as [|c s IH]; [reflexivity|].
  rewrite app_cons. unfold toLowerCase in *. simpl. rewrite IH. reflexivity.
Qed.

Lemma toLowerCase_idem (s : string) : toLowerCase (toLowerCase s) = toLowerCase s.
Proof.
  unfold toLowerCase. induction s as [|c s IH]; [reflexivity|].
  simpl. rewrite lower_char_idem, IH. reflexivity.
Qed.

Lemma all_plain_lower (s : string) :
  all_chars plain_char s = true -> all_chars plain_char (toLowerCase s) = true.
Proof.
  unfold toLowerCase. induction s as [|c s IH]; [reflexivity|].
  simpl. intros [Hc Hs]%andb_prop.
  rewrite (plain_char_lower c Hc), (IH Hs). reflexivity.
Qed.

Lemma settled_lower (s : string) :
  settled s = true -> settled (toLowerCase s) = true.
Proof.
  unfold settled, is_single_dot, is_double_dot. cbv zeta.
  rewrite toLowerCase_idem.
  intros [[H1 H2]%andb_prop H3]%andb_prop.
  rewrite (all_plain_lower s H1), H2, H3. reflexivity.
Qed.

(** *** The path state on a serialized path *)

Lemma path_state_plain (x rest buf : string) (acc : list string) :
  all_chars plain_char x = true ->
  path_state (x +:+ rest) buf acc = path_state rest (buf +:+ x) acc.
Proof.
  revert buf. induction x as [|c x IH]; intros buf Hx.
  - rewrite app_empty_r. reflexivity.
  - simpl in Hx. apply andb_prop in Hx as [Hc Hx].
    destruct (plain_char_copied c Hc) as (H1 & H2 & H3).
    rewrite app_cons. simpl. rewrite H1, H2, H3.
    rewrite IH by exact Hx. rewrite app_assoc_str. reflexivity.
Qed.

Lemma close_segment_settled (x : string) (b : bool) (acc : list string) :
  settled x = true -> close_segment x b acc = acc ++ [x].
Proof.
  unfold settled, close_segment.
  intros [[_ H2]%andb_prop H3]%andb_prop.
  apply negb_true_iff in H2, H3. rewrite H2, H3. reflexivity.
Qed.

Lemma settled_plain (x : string) : settled x = true -> all_chars plain_char x = true.
Proof. unfold settled. intros [[H _]%andb_prop _]%andb_prop. exact H. Qed.

Lemma path_state_serialized (l : list string) :
  Forall (fun s => settled s = true) l ->
  forall x acc, settled x = true ->
  path_state (x +:+ serialize_path l) "" acc = acc ++ x :: l.
Proof.
  induction 1 as [|y l Hy Hl IH]; intros x acc Hx.
  - simpl serialize_path. rewrite path_state_plain by (apply settled_plain, Hx).
    simpl. apply close_segment_settled, Hx.
  - simpl serialize_path. rewrite path_state_plain by (apply settled_plain, Hx).
    rewrite app_cons. simpl. rewrite close_segment_settled by exact Hx.
    rewrite IH by exact Hy. rewrite <- app_assoc. reflexivity.
Qed.

Lemma path_start_state_serialized (l : list string) :
  Forall (fun s => settled s = true) l ->
  path_start_state (serialize_path l) = match l with [] => [""] | _ => l end.
Proof.
  intros Hl. destruct l as [|x l]; [reflexivity|].
  inversion Hl; subst. simpl serialize_path. rewrite app_cons.
  unfold path_start_state. simpl is_slash. cbv iota.
  apply (path_state_serialized l H2 x []). assumption.
Qed.

(** *** What the path state produces *)

Lemma Forall_removelast {A} (P : A -> Prop) (l : list A) :
  Forall P l -> Forall P (removelast l).
Proof.
  induction 1 as [|x l Hx Hl IH]; [constructor|].
  simpl. destruct l; [constructor|]. constructor; assumption.
Qed.

Lemma close_segment_keeps_settled (buf : string) (b : bool) (acc : list string) :
  all_chars plain_char buf = true ->
  Forall (fun s => settled s = true) acc ->
  Forall (fun s => settled s = true) (close_segment buf b acc).
Proof.
  intros Hb Hacc. unfold close_segment, shorten.
  destruct (is_double_dot buf) eqn:Hdd.
  - destruct b; [apply Forall_removelast, Hacc|].
    apply List.Forall_app. split; [apply Forall_removelast, Hacc|].
    constructor; [reflexivity | constructor].
  - destruct (is_single_dot buf) eqn:Hsd.
    + destruct b; [exact Hacc|].
      apply List.Forall_app. split; [exact Hacc|].
      constructor; [reflexivity | constructor].
    + apply List.Forall_app. split; [exact Hacc|].
      constructor; [|constructor].
      unfold settled. rewrite Hb, Hsd, Hdd. reflexivity.
Qed.

Lemma close_segment_at_end_not_nil (buf : string) (acc : list string) :
  close_segment buf false acc <> [].
Proof.
  unfold close_segment.
  destruct (is_double_dot buf); [|destruct (is_single_dot buf)];
    intros H; apply app_eq_nil in H as [_ H]; discriminate H.
Qed.

Lemma path_state_settled (input : string) :
  forall buf acc,
  all_chars plain_char buf = true ->
  Forall (fun s => settled s = true) acc ->
  Forall (fun s => settled s = true) (path_state input buf acc)
  /\ path_state input buf acc <> [].
Proof.
  induction input as [|c input IH]; intros buf acc Hb Hacc; simpl.
  - split; [apply close_segment_keeps_settled; assumption
           | apply close_segment_at_end_not_nil].
  - destruct (is_slash c) eqn:Hs.
    + apply IH; [reflexivity | apply close_segment_keeps_settled; assumption].
    + destruct (is_query_or_fragment c) eqn:Hq.
      * split; [apply close_segment_keeps_settled; assumption
               | apply close_segment_at_end_not_nil].
      * apply IH; [|exact Hacc].
        rewrite all_chars_app, Hb, encode_path_char_plain by assumption.
        reflexivity.
Qed.

Lemma path_start_state_settled (input : string) :
  Forall (fun s => settled s = true) (path_start_state input)
  /\ path_start_state input <> [].
Proof.
  unfold path_start_state. destruct input as [|c input].
  - apply path_state_settled; [reflexivity | constructor].
  - destruct (is_slash c); apply path_state_settled;
      solve [reflexivity | constructor].
Qed.

(** *** Serialized paths *)

Lemma serialize_path_app (l1 l2 : list string) :
  serialize_path (l1 ++ l2) = serialize_path l1 +:+ serialize_path l2.
Proof.
  induction l1 as [|x l1 IH]; [reflexivity|].
  simpl. rewrite IH, !app_cons, app_assoc_str. reflexivity.
Qed.

Lemma toLowerCase_serialize_path (l : list string) :
  toLowerCase (serialize_path l) = serialize_path (map toLowerCase l).
Proof.
  induction l as [|x l IH]; [reflexivity|].
  simpl. rewrite !app_cons, <- IH, <- toLowerCase_app. reflexivity.
Qed.

Lemma serialize_path_chars (l : list string) :
  Forall (fun s => settled s = true) l ->
  all_chars path_char (serialize_path l) = true.
Proof.
  induction 1 as [|x l Hx Hl IH]; [reflexivity|].
  simpl serialize_path. rewrite app_cons. cbn [all_chars].
  rewrite all_chars_app, IH, andb_true_r.
  change (path_char "/") with true. cbn [andb].
  apply settled_plain in Hx. clear -Hx.
  induction x as [|c x IHx]; [reflexivity|].
  simpl in *. apply andb_prop in Hx as [Hc Hx].
  unfold path_char at 1. rewrite Hc. simpl. apply IHx, Hx.
Qed.

Lemma strip_trailing_visible (s : string) :
  all_chars path_char s = true -> strip_trailing s = s.
Proof.
  induction s as [|c s IH]; [reflexivity|].
  simpl. intros [Hc Hs]%andb_prop. rewrite (IH Hs).
  destruct (path_char_visible c Hc) as [H _].
  destruct s; [rewrite H|]; reflexivity.
Qed.

Lemma remove_tab_newline_visible (s : string) :
  all_chars path_char s = true -> remove_tab_newline s = s.
Proof.
  induction s as [|c s IH]; [reflexivity|].
  simpl. intros [Hc Hs]%andb_prop. rewrite (IH Hs).
  destruct (path_char_visible c Hc) as [_ H]. rewrite H. reflexivity.
Qed.

Lemma split_authority_serialized (l : list string) :
  split_authority (serialize_path l) = ("", serialize_path l).
Proof. destruct l; reflexivity. Qed.

Lemma URL_pathname_serialized (ok : string -> bool) (l : list string) :
  Forall (fun s => settled s = true) l ->
  URL_pathname ok (serialize_path l)
  = Ok (serialize_path (match l with [] => [""] | _ => l end)).
Proof.
  intros Hl. unfold URL_pathname.
  rewrite strip_trailing_visible, remove_tab_newline_visible
    by (apply serialize_path_chars, Hl).
  rewrite split_authority_serialized. simpl.
  rewrite path_start_state_serialized by exact Hl. reflexivity.
Qed.

(** *** Stripping the trailing slash *)

Lemma endsWith_app (s t : string) (d : ascii) :
  t <> "" -> endsWith (s +:+ t) d = endsWith t d.
Proof.
  intros Ht. induction s as [|c s IH]; [reflexivity|].
  rewrite app_cons. simpl. rewrite IH.
  destruct (s +:+ t) eqn:E; [|reflexivity].
  destruct s; [|discriminate E]. rewrite app_empty_l in E. contradiction.
Qed.

Lemma slice_app_char (s : string) (c : ascii) : slice_0_m1 (s +:+ String c "") = s.
Proof.
  induction s as [|d s IH]; [reflexivity|].
  rewrite app_cons. simpl. rewrite IH.
  destruct (s +:+ String c "") eqn:E; [|reflexivity].
  destruct s; discriminate E.
Qed.

Lemma plain_not_slash_ended (x : string) :
  all_chars plain_char x = true -> endsWith x "/" = false.
Proof.
  induction x as [|c x IH]; [reflexivity|].
  simpl. intros [Hc Hx]%andb_prop. destruct x as [|d x].
  - destruct (plain_char_copied c Hc) as (H & _).
    unfold is_slash in H. apply orb_false_elim in H as [H _]. exact H.
  - apply IH, Hx.
Qed.

Lemma strip_serialized (l : list string) (x : string) :
  all_chars plain_char x = true ->
  strip_one_slash (serialize_path (l ++ [x]))
  = if String.eqb x "" then serialize_path l else serialize_path (l ++ [x]).
Proof.
  intros Hx. unfold strip_one_slash.
  rewrite serialize_path_app. simpl serialize_path. rewrite app_empty_r.
  destruct x as [|c x].
  - simpl String.eqb. rewrite endsWith_app by discriminate. simpl endsWith.
    apply slice_app_char.
  - simpl String.eqb. rewrite endsWith_app by discriminate.
    change (endsWith (String "/" (String c x)) "/") with (endsWith (String c x) "/").
    rewrite plain_not_slash_ended by exact Hx. reflexivity.
Qed.

(** *** Normalizing twice *)

Lemma map_lower_fixed (l : list string) :
  Forall lower_settled l -> map toLowerCase l = l.
Proof.
  induction 1 as [|x l [_ Hx] Hl IH]; [reflexivity|].
  simpl. rewrite Hx, IH. reflexivity.
Qed.

Lemma Forall_lower_settled (l : list string) :
  Forall lower_settled l -> Forall (fun s => settled s = true) l.
Proof. apply List.Forall_impl. intros s [H _]. exact H. Qed.

Lemma normalizePath_serialized (ok : string -> bool) (l : list string) :
  Forall lower_settled l ->
  normalizePath ok (Some (serialize_path l)) = Ok (strip_one_slash (serialize_path l)).
Proof.
  intros Hl. unfold normalizePath. simpl string_of_operand.
  rewrite URL_pathname_serialized by (apply Forall_lower_settled, Hl).
  simpl bind. destruct l as [|x l]; [reflexivity|].
  rewrite toLowerCase_serialize_path, map_lower_fixed by exact Hl.
  reflexivity.
Qed.

Lemma normalizePath_shape (ok : string -> bool) (reqPath : option string) (q : string) :
  normalizePath ok reqPath = Ok q ->
  exists l, Forall lower_settled l /\ q = serialize_path l.
Proof.
  unfold normalizePath, URL_pathname.
  destruct (split_authority _) as [authority tail].
  destruct (_ || _); [|discriminate]. simpl bind. intros [= <-].
  destruct (path_start_state_settled tail) as [Hs Hne].
  rewrite toLowerCase_serialize_path.
  assert (Hl : Forall lower_settled (map toLowerCase (path_start_state tail))).
  { apply List.Forall_map. eapply List.Forall_impl; [|exact Hs].
    intros s H. split; [apply settled_lower, H | apply toLowerCase_idem]. }
  destruct (exists_last (l := map toLowerCase (path_start_state tail)))
    as (init & last & E).
  { intros H. apply map_eq_nil in H. contradiction. }
  rewrite E in Hl |- *. apply List.Forall_app in Hl as [Hinit Hlast].
  inversion Hlast as [|? ? [Hx _] _]; subst.
  fold (strip_one_slash (serialize_path (init ++ [last]))).
  rewrite strip_serialized by (apply settled_plain, Hx).
  destruct (String.eqb last "").
  - exists init. split; [exact Hinit | reflexivity].
  - exists (init ++ [last]). split; [|reflexivity].
    apply List.Forall_app. split; assumption.
Qed.

Lemma normalizePath_twice (ok : string -> bool) (reqPath : option string) (q : string) :
  normalizePath ok reqPath = Ok q ->
  normalizePath ok (Some q) = Ok (strip_one_slash q).
Proof.
  intros H. apply normalizePath_shape in H as (l & Hl & ->).
  apply normalizePath_serialized, Hl.
Qed.

(** C7, as amended.  Normalizing a normalized path gives it back whenever
    the normalized path does not end in a slash; [normalizePath] removes one
    trailing slash only, so a path name that ends in two slashes keeps one
    after the first pass. *)
Theorem normalizePath_idempotent (ok : string -> bool) (reqPath : option string)
    (q : string) :
  normalizePath ok reqPath = Ok q ->
  endsWith q "/" = false ->
  normalizePath ok (Some q) = Ok q.
Proof.
  intros H He. rewrite (normalizePath_twice ok reqPath q H).
  unfold strip_one_slash. rewrite He. reflexivity.
Qed.

Lemma normalizePath_idempotent_on_gallery :
  normalizePath (fun _ => false) (Some "/Gallery/") = Ok "/gallery"
  /\ normalizePath (fun _ => false) (Some "/gallery") = Ok "/gallery".
Proof.
  split; [reflexivity|].
  apply (normalizePath_idempotent (fun _ => false) (Some "/Gallery/") "/gallery");
    reflexivity.
Defined.

(** C7 as stated fails on [/foo//]: the first pass gives [/foo/], the second
    [/foo], whatever the host parser accepts. *)
Lemma normalizePath_not_idempotent :
  (fun ok => normalizePath ok (Some "/foo//")) = (fun _ => Ok "/foo/")
  /\ (fun ok => normalizePath ok (Some "/foo/")) = (fun _ => Ok "/foo")
  /\ ~ (forall (ok : string -> bool) (p q : string),
          normalizePath ok (Some p) = Ok q -> normalizePath ok (Some q) = Ok q).
Proof.
  split; [reflexivity|]. split; [reflexivity|].
  intros H. specialize (H (fun _ => false) "/foo//" "/foo/" eq_refl).
  discriminate H.
Qed.

(** What a second [normalizePath] does: it strips one more trailing slash, and
    it gives the normalized path back exactly when that path does not end in
    a slash. *)
Theorem normalizePath_second_pass (ok : string -> bool) (reqPath : option string)
    (q : string) :
  normalizePath ok reqPath = Ok q ->
  normalizePath ok (Some q) = Ok (strip_one_slash q)
  /\ (normalizePath ok (Some q) = Ok q <-> endsWith q "/" = false).
Proof.
  intros H. pose proof (normalizePath_twice ok reqPath q H) as H2.
  split; [exact H2|]. rewrite H2. unfold strip_one_slash.
  destruct (endsWith q "/") eqn:E.
  - split; [|discriminate]. intros [= Hq]. exfalso.
    assert (Hlen : String.length (slice_0_m1 q) <> String.length q).
    { clear -E. induction q as [|c q IH]; [discriminate|].
      destruct q as [|d q]; [discriminate|].
      change (slice_0_m1 (String c (String d q))) with (String c (slice_0_m1 (String d q))).
      simpl String.length in *. intros Heq. apply IH; [exact E|]. congruence. }
    rewrite Hq in Hlen. contradiction.
  - split; reflexivity.
Qed.

Lemma normalizePath_second_pass_on_double_slash :
  normalizePath (fun _ => false) (Some "/foo//") = Ok "/foo/"
  /\ normalizePath (fun _ => false) (Some "/foo/") = Ok "/foo"
  /\ (normalizePath (fun _ => false) (Some "/foo/") = Ok "/foo/"
      <-> endsWith "/foo/" "/" = false).
Proof.
  split; [reflexivity|].
  apply (normalizePath_second_pass (fun _ => false) (Some "/foo//") "/foo/").
  reflexivity.
Defined.


(** ** Routes and dispatch *)

Section ServerProperties.

Variable authority_ok : string -> bool.

Lemma createRouteKey_inv (m : string) (reqPath : option string) (key : string) :
  createRouteKey authority_ok (Some m) reqPath = Ok key ->
  exists n, normalizePath authority_ok reqPath = Ok n
            /\ key = toUpperCase m +:+ " " +:+ n.
Proof.
  unfold createRouteKey.
  destruct (normalizePath authority_ok reqPath) as [n|e]; [|discriminate].
  simpl. intros [= <-]. eauto.
Qed.

Lemma spaced_not_inherited (key : string) :
  lacks " " key = false -> inherited key = false.
Proof.
  intros Hk. destruct (inherited key) eqn:E; [|reflexivity].
  unfold inherited in E. apply existsb_exists in E as (name & Hin & Heq).
  apply String.eqb_eq in Heq. subst name.
  assert (Hall : Forall (fun name => lacks " " name = true) Object_prototype_names).
  { repeat constructor. }
  rewrite List.Forall_forall in Hall. rewrite (Hall key Hin) in Hk. discriminate.
Qed.

(** A route key holds a space, so it is never the name of a property that
    the route table inherits. *)
Lemma route_key_own (method reqPath : option string) (key : string) :
  createRouteKey authority_ok method reqPath = Ok key -> inherited key = false.
Proof.
  destruct method as [m|]; [|discriminate].
  intros (n & _ & ->)%createRouteKey_inv.
  apply spaced_not_inherited.
  rewrite !lacks_app. simpl. apply andb_false_r.
Qed.

Lemma processRoutes_hit (app : App) (req : Request.t) (res : Response.t)
    (key : string) (callback : handler) :
  createRouteKey authority_ok (Request.method req) (Request.path req) = Ok key ->
  routes app !! key = Some callback ->
  processRoutes authority_ok app req res = callback req res.
Proof.
  intros Hk Hr. unfold processRoutes, has_route, handler in *.
  rewrite Hk. cbn [bind].
  rewrite Hr. rewrite bool_decide_eq_true_2 by eauto. reflexivity.
Qed.

Lemma processRoutes_miss (app : App) (req : Request.t) (res : Response.t)
    (key : string) :
  createRouteKey authority_ok (Request.method req) (Request.path req) = Ok key ->
  routes app !! key = None ->
  processRoutes authority_ok app req res
  = Ok (Response.send (Text "Page not found") (Response.assign_status 404 res)).
Proof.
  intros Hk Hr. unfold processRoutes, has_route, handler in *.
  rewrite Hk. cbn [bind].
  rewrite Hr, (route_key_own _ _ _ Hk).
  rewrite bool_decide_eq_false_2 by (intros [? ?]; discriminate). reflexivity.
Qed.

Lemma get_inv (reqPath : string) (callback : handler) (app app' : App) :
  get authority_ok reqPath callback app = Ok app' ->
  exists n, normalizePath authority_ok (Some reqPath) = Ok n
    /\ app' = {| routes := <["GET " +:+ n := callback]> (routes app);
                 middleware := middleware app |}.
Proof.
  unfold get.
  destruct (createRouteKey authority_ok (Some "GET") (Some reqPath)) as [key|e] eqn:E;
    [|discriminate].
  simpl. intros [= <-].
  apply createRouteKey_inv in E as (n & Hn & ->). exists n. split; [exact Hn|].
  reflexivity.
Qed.

(** Right after [get(reqPath, callback)], dispatch of a matching request
    calls [callback]. *)
Lemma dispatch_after_get (app app' : App) (reqPath : string)
    (callback : handler) (req : Request.t) (res : Response.t) (m : string) :
  get authority_ok reqPath callback app = Ok app' ->
  Request.method req = Some m ->
  toUpperCase m = "GET" ->
  normalizePath authority_ok (Request.path req)
    = normalizePath authority_ok (Some reqPath) ->
  processRoutes authority_ok app' req res = callback req res.
Proof.
  intros (n & Hn & ->)%get_inv Hm Hup Hp.
  apply processRoutes_hit with (key := "GET " +:+ n).
  - rewrite Hm. unfold createRouteKey. rewrite Hp, Hn, Hup. reflexivity.
  - simpl. apply lookup_insert_eq.
Qed.


Lemma get_all_app (before after : list (string * handler)) (app : App) :
  get_all authority_ok (before ++ after) app
  = let* app' := get_all authority_ok before app in get_all authority_ok after app'.
Proof.
  revert app. induction before as [|[p h] before IH]; intros app; [reflexivity|].
  simpl. destruct (get authority_ok p h app) as [app1|e]; [apply IH | reflexivity].
Qed.

Lemma get_all_keeps (after : list (string * handler)) (n : string) :
  Forall (fun reg => normalizePath authority_ok (Some reg.1) <> Ok n) after ->
  forall app app', get_all authority_ok after app = Ok app' ->
  routes app' !! ("GET " +:+ n) = routes app !! ("GET " +:+ n).
Proof.
  induction 1 as [|[p h] after Hp Hafter IH]; intros app app' H.
  - injection H as <-. reflexivity.
  - simpl in H. destruct (get authority_ok p h app) as [app1|e] eqn:E; [|discriminate].
    simpl in H. rewrite (IH _ _ H).
    apply get_inv in E as (n1 & Hn1 & ->). simpl.
    apply lookup_insert_ne. intros Heq. apply Hp. simpl.
    rewrite Hn1. f_equal. apply (inj (String.app "GET ")) in Heq. exact Heq.
Qed.

(** C2.  A handler registered by [get(reqPath, callback)], among the other
    registrations that set the application up, is the one dispatch calls,
    with the request and the response, on every request whose method is GET
    once upper-cased and whose path normalizes as [reqPath] does, as long as
    no later registration is for a path that normalizes the same. *)
Theorem registered_handler_invoked (app app' : App)
    (before after : list (string * handler)) (reqPath : string)
    (callback : handler) (req : Request.t) (res : Response.t) (m : string) :
  get_all authority_ok (before ++ (reqPath, callback) :: after) app = Ok app' ->
  Forall (fun reg => normalizePath authority_ok (Some reg.1)
                     <> normalizePath authority_ok (Some reqPath)) after ->
  Request.method req = Some m ->
  toUpperCase m = "GET" ->
  normalizePath authority_ok (Request.path req)
    = normalizePath authority_ok (Some reqPath) ->
  processRoutes authority_ok app' req res = callback req res.
Proof.
  intros Hall Hafter Hm Hup Hp.
  rewrite get_all_app in Hall.
  destruct (get_all authority_ok before app) as [app0|e]; [|discriminate].
  simpl in Hall.
  destruct (get authority_ok reqPath callback app0) as [app1|e] eqn:E; [|discriminate].
  simpl in Hall.
  apply get_inv in E as (n & Hn & ->).
  rewrite Hn in Hafter, Hp.
  apply processRoutes_hit with (key := "GET " +:+ n).
  - rewrite Hm. unfold createRouteKey. rewrite Hp, Hup. reflexivity.
  - rewrite (get_all_keeps after n Hafter _ _ Hall). simpl.
    apply lookup_insert_eq.
Qed.

(** C6.  Two paths that normalize alike give the same route key; registering
    a GET handler for each in turn leaves the table that registering the
    second alone gives, and every request for that key reaches the second
    handler: the first registration is overwritten. *)
Theorem colliding_registrations (app app1 app2 : App) (p1 p2 : string)
    (h1 h2 : handler) :
  normalizePath authority_ok (Some p1) = normalizePath authority_ok (Some p2) ->
  get authority_ok p1 h1 app = Ok app1 ->
  get authority_ok p2 h2 app1 = Ok app2 ->
  createRouteKey authority_ok (Some "GET") (Some p1)
    = createRouteKey authority_ok (Some "GET") (Some p2)
  /\ get authority_ok p2 h2 app = Ok app2
  /\ (forall (req : Request.t) (res : Response.t) (m : string),
        Request.method req = Some m ->
        toUpperCase m = "GET" ->
        normalizePath authority_ok (Request.path req)
          = normalizePath authority_ok (Some p1) ->
        processRoutes authority_ok app2 req res = h2 req res).
Proof.
  intros Hp H1 H2.
  split; [unfold createRouteKey; rewrite Hp; reflexivity|].
  split.
  - apply get_inv in H1 as (n1 & Hn1 & ->).
    apply get_inv in H2 as (n2 & Hn2 & ->).
    assert (n1 = n2) as -> by congruence.
    unfold get, createRouteKey. rewrite Hn2. simpl.
    rewrite insert_insert_eq. reflexivity.
  - intros req res m Hm Hup Hreq.
    apply (dispatch_after_get app1 app2 p2 h2 req res m H2 Hm Hup).
    congruence.
Qed.

(** C10.  The root path [/] normalizes to the empty string, so its GET key is
    [GET] followed by a space and nothing; a handler registered for [/] is
    the one dispatch calls on a GET request for [/]. *)
Theorem root_path_route (app : App) (callback : handler) (others : list string)
    (res : Response.t) :
  let req := {| Request.method := Some "GET"; Request.path := Some "/";
                Request.others := others |} in
  normalizePath authority_ok (Some "/") = Ok ""
  /\ createRouteKey authority_ok (Some "GET") (Some "/") = Ok "GET "
  /\ exists app', get authority_ok "/" callback app = Ok app'
       /\ processRoutes authority_ok app' req res = callback req res.
Proof.
  cbv zeta. split; [reflexivity|]. split; [reflexivity|].
  eexists. split; [reflexivity|].
  apply (dispatch_after_get app _ "/" callback _ res "GET"); reflexivity.
Qed.

(** C1 does not hold of the code.  On a request that matches no route,
    [res.status = 404] gives the response an own property [status] and leaves
    [statusCode] at 200: the body [Page not found] goes out under the status
    line [HTTP/1.1 200 OK]. *)
Theorem not_found_sent_with_status_200 :
  let req := Request.constructor "GET /missing HTTP/1.1" in
  exists res',
    processRoutes authority_ok App_new req (Response.new fresh_socket) = Ok res'
    /\ Response.statusCode res' = 200
    /\ Response.own_status res' = Some 404
    /\ written (Response.sock res')
       = [ "HTTP/1.1 200 OK" +:+ CRLF; "Content-Type: text/html" +:+ CRLF; CRLF;
           "Page not found" ].
Proof.
  cbv zeta. eexists. split.
  - apply processRoutes_miss with (key := "GET /missing"); reflexivity.
  - repeat split.
Qed.

End ServerProperties.

(** Every request that matches no route is answered with the body
    [Page not found] under the status code the response already had: the
    assignment of 404 goes to the [status] property, not to [statusCode]. *)
Theorem unmatched_route_response (ok : string -> bool) (app : App)
    (req : Request.t) (res : Response.t) (key : string) :
  createRouteKey ok (Request.method req) (Request.path req) = Ok key ->
  routes app !! key = None ->
  exists res',
    processRoutes ok app req res = Ok res'
    /\ Response.statusCode res' = Response.statusCode res
    /\ Response.own_status res' = Some 404
    /\ (ended (Response.sock res) = false ->
        Response.statusCode res <> 301 ->
        written (Response.sock res')
        = written (Response.sock res)
          ++ [ Response.statusLineToString res;
               Response.headersToString (with_default_content_type res);
               CRLF; "Page not found" ]).
Proof.
  intros Hk Hr. eexists. split; [apply (processRoutes_miss ok app req res key Hk Hr)|].
  destruct (send_fields (Text "Page not found") (Response.assign_status 404 res))
    as (Hc & _ & _ & _ & Ho).
  split; [exact Hc|]. split; [exact Ho|].
  intros He Hn. rewrite send_written_separately by assumption.
  unfold separate_writes, with_default_content_type. cbn [Response.assign_status Response.headers Response.sock].
  destruct (js_in "Content-Type" (Response.headers res)); reflexivity.
Qed.

Lemma unmatched_route_response_for_missing :
  exists res',
    processRoutes (fun _ => false) App_new
      (Request.constructor "POST /missing HTTP/1.1") (Response.new fresh_socket) = Ok res'
    /\ Response.statusCode res' = 200
    /\ Response.own_status res' = Some 404
    /\ written (Response.sock res')
       = [ "HTTP/1.1 200 OK" +:+ CRLF; "Content-Type: text/html" +:+ CRLF; CRLF;
           "Page not found" ].
Proof.
  destruct (unmatched_route_response (fun _ => false) App_new
              (Request.constructor "POST /missing HTTP/1.1")
              (Response.new fresh_socket) "POST /missing" eq_refl eq_refl)
    as (res' & H1 & H2 & H3 & H4).
  exists res'. split; [exact H1|]. split; [exact H2|]. split; [exact H3|].
  apply H4; [reflexivity | discriminate].
Defined.


Lemma registered_handler_invoked_on_gallery :
  let home : handler := fun _ res => Ok (Response.send (Text "home") res) in
  let gallery : handler := fun _ res => Ok (Response.send (Text "gallery") res) in
  let about : handler := fun _ res => Ok (Response.send (Text "about") res) in
  let req := Request.constructor "get /gallery?page=2 HTTP/1.1" in
  let res := Response.new fresh_socket in
  exists app',
    get_all (fun _ => false)
      ([("/", home)] ++ ("/Gallery/", gallery) :: [("/about", about)]) App_new = Ok app'
    /\ processRoutes (fun _ => false) app' req res = gallery req res.
Proof.
  intros home gallery about req res. eexists. split; [reflexivity|].
  apply (registered_handler_invoked (fun _ => false) App_new _
           [("/", home)] [("/about", about)] "/Gallery/" gallery req res "get");
    try reflexivity.
  repeat constructor. discriminate.
Defined.

Lemma colliding_registrations_Foo_foo :
  let h1 : handler := fun _ res => Ok (Response.send (Text "first") res) in
  let h2 : handler := fun _ res => Ok (Response.send (Text "second") res) in
  normalizePath (fun _ => false) (Some "/Foo") = Ok "/foo"
  /\ normalizePath (fun _ => false) (Some "/foo/") = Ok "/foo"
  /\ exists app1 app2,
       get (fun _ => false) "/Foo" h1 App_new = Ok app1
       /\ get (fun _ => false) "/foo/" h2 app1 = Ok app2
       /\ createRouteKey (fun _ => false) (Some "GET") (Some "/Foo")
          = createRouteKey (fun _ => false) (Some "GET") (Some "/foo/")
       /\ get (fun _ => false) "/foo/" h2 App_new = Ok app2
       /\ (forall (req : Request.t) (res : Response.t) (m : string),
             Request.method req = Some m ->
             toUpperCase m = "GET" ->
             normalizePath (fun _ => false) (Request.path req)
               = normalizePath (fun _ => false) (Some "/Foo") ->
             processRoutes (fun _ => false) app2 req res = h2 req res).
Proof.
  intros h1 h2. split; [reflexivity|]. split; [reflexivity|].
  eexists. eexists. split; [reflexivity|]. split; [reflexivity|].
  eapply (colliding_registrations (fun _ => false) App_new _ _ "/Foo" "/foo/" h1 h2);
    reflexivity.
Defined.

(** ** The static-file middleware *)

Lemma serveStatic_falls_through (fs : FileSystem) (basePath filePath : string)
    (req : Request.t) (res : Response.t) (next : Response.t -> result Response.t) :
  path_posix_join basePath (Request.path req) = Ok filePath ->
  holds_NUL filePath = false ->
  fs filePath = None ->
  serveStatic fs basePath req res next = next res.
Proof.
  intros Hj Hn Hf. unfold serveStatic, readFile. rewrite Hj. cbn [bind].
  rewrite Hn. cbn [bind]. rewrite Hf. reflexivity.
Qed.

Lemma serveStatic_serves (fs : FileSystem) (basePath filePath data : string)
    (req : Request.t) (res : Response.t) (next : Response.t -> result Response.t) :
  path_posix_join basePath (Request.path req) = Ok filePath ->
  holds_NUL filePath = false ->
  fs filePath = Some data ->
  serveStatic fs basePath req res next
  = Ok (Response.send (Buffer data)
          (Response.set "Content-Type" (getMIMEType filePath) res)).
Proof.
  intros Hj Hn Hf. unfold serveStatic, readFile. rewrite Hj. cbn [bind].
  rewrite Hn. cbn [bind]. rewrite Hf. reflexivity.
Qed.

Lemma serveStatic_refuses_NUL (fs : FileSystem) (basePath filePath : string)
    (req : Request.t) (res : Response.t) (next : Response.t -> result Response.t) :
  path_posix_join basePath (Request.path req) = Ok filePath ->
  holds_NUL filePath = true ->
  serveStatic fs basePath req res next = Throw ERR_INVALID_ARG_VALUE.
Proof.
  intros Hj Hn. unfold serveStatic, readFile. rewrite Hj. cbn [bind].
  rewrite Hn. reflexivity.
Qed.

Lemma MIME_TYPES_truthy (ext : string) (v : jsval) :
  own ext MIME_TYPES = Some v -> truthy (Some v) = true.
Proof.
  unfold MIME_TYPES. cbn [own].
  repeat match goal with
         | |- context [String.eqb ?a ext] => destruct (String.eqb a ext)
         end; intros [= ?]; subst; reflexivity.
Qed.

Lemma getMIMEType_of_table (fileName : string) :
  inherited (getExtension fileName) = false ->
  getMIMEType fileName
  = match own (getExtension fileName) MIME_TYPES with
    | Some v => v
    | None => VStr ""
    end.
Proof.
  intros Hi. unfold getMIMEType, js_get. rewrite Hi.
  destruct (own (getExtension fileName) MIME_TYPES) as [v|] eqn:E; [|reflexivity].
  rewrite (MIME_TYPES_truthy _ _ E). reflexivity.
Qed.


(** C5 does not hold of the code.  The MIME table is an object, and reading
    [MIME_TYPES[ext]] also finds what the table inherits: for a file named
    [x.constructor] the extension is in no entry of the table, yet the
    [Content-Type] that is set is the function [Object], not the empty
    string. *)
Theorem static_file_inherited_extension :
  let fs : FileSystem :=
    fun p => if String.eqb p "public/x.constructor" then Some "data" else None in
  let req := Request.constructor "GET /x.constructor HTTP/1.1" in
  forall next : Response.t -> result Response.t,
  exists res',
    serveStatic fs "public" req (Response.new fresh_socket) next = Ok res'
    /\ getExtension "public/x.constructor" = "constructor"
    /\ own "constructor" MIME_TYPES = None
    /\ own "Content-Type" (Response.headers res') = Some (VInherited "constructor")
    /\ written (Response.sock res')
       = [ "HTTP/1.1 200 OK" +:+ CRLF;
           "Content-Type: function Object() { [native code] }" +:+ CRLF;
           CRLF; "data" ].
Proof.
  intros fs req next. eexists. split.
  - apply serveStatic_serves with (filePath := "public/x.constructor"); reflexivity.
  - repeat split.
Qed.

(** The static-file middleware behind [handleRequest].  A file path that
    holds a NUL byte makes [fs.readFile] throw, and so [handleRequest].
    Otherwise, when the read fails the request goes to route dispatch; when
    it succeeds the response carries the [Content-Type] that [getMIMEType]
    gives for the file and the bytes of the file as they are.  For an
    extension that is not the name of an inherited property, that type is the
    entry of the MIME table, or the empty string when the table has none. *)
Theorem static_middleware (ok : string -> bool) (fs : FileSystem)
    (basePath filePath : string) (app : App) (sock : Socket) (binaryData : string) :
  let req := Request.constructor (Buffer_toString binaryData) in
  let app' := use (serveStatic fs basePath) app in
  path_posix_join basePath (Request.path req) = Ok filePath ->
  ended sock = false ->
  (holds_NUL filePath = true ->
   handleRequest ok app' sock binaryData = Throw ERR_INVALID_ARG_VALUE)
  /\ (holds_NUL filePath = false -> fs filePath = None ->
      handleRequest ok app' sock binaryData
      = processRoutes ok app' req (Response.new sock))
  /\ (holds_NUL filePath = false -> forall data, fs filePath = Some data ->
      exists res',
        handleRequest ok app' sock binaryData = Ok res'
        /\ own "Content-Type" (Response.headers res') = Some (getMIMEType filePath)
        /\ written (Response.sock res')
           = written sock
             ++ [ "HTTP/1.1 200 OK" +:+ CRLF;
                  "Content-Type: " +:+ jsval_toString (getMIMEType filePath) +:+ CRLF;
                  CRLF; data ]
        /\ (inherited (getExtension filePath) = false ->
            getMIMEType filePath
            = match own (getExtension filePath) MIME_TYPES with
              | Some v => v
              | None => VStr ""
              end)).
Proof.
  intros req app' Hj He. split; [|split].
  - intros Hn. unfold handleRequest. cbn [middleware app' use].
    apply serveStatic_refuses_NUL with (filePath := filePath); assumption.
  - intros Hn Hf. unfold handleRequest. cbn [middleware app' use].
    apply (serveStatic_falls_through fs basePath filePath req (Response.new sock)
             (fun res' => processRoutes ok app' req res') Hj Hn Hf).
  - intros Hn data Hf. eexists. split.
    + unfold handleRequest. cbn [middleware app' use].
      apply serveStatic_serves with (filePath := filePath); eassumption.
    + split; [reflexivity|]. split; [|apply getMIMEType_of_table].
      rewrite send_written_separately; [reflexivity | discriminate | exact He].
Qed.

Lemma static_middleware_on_cat :
  let fs : FileSystem :=
    fun p => if String.eqb p "public/img/cat.jpg" then Some "JFIF" else None in
  (exists res',
     handleRequest (fun _ => false) (use (serveStatic fs "public") App_new)
       fresh_socket "GET /img/cat.jpg HTTP/1.1" = Ok res'
     /\ written (Response.sock res')
        = [ "HTTP/1.1 200 OK" +:+ CRLF; "Content-Type: image/jpeg" +:+ CRLF; CRLF;
            "JFIF" ])
  /\ handleRequest (fun _ => false) (use (serveStatic fs "public") App_new)
       fresh_socket "GET /img/missing.jpg HTTP/1.1"
     = processRoutes (fun _ => false) (use (serveStatic fs "public") App_new)
         (Request.constructor "GET /img/missing.jpg HTTP/1.1")
         (Response.new fresh_socket)
  /\ handleRequest (fun _ => false) (use (serveStatic fs "public") App_new)
       fresh_socket ("GET /a" +:+ String "000" "b HTTP/1.1")
     = Throw ERR_INVALID_ARG_VALUE.
Proof.
  intros fs. split; [|split].
  - destruct (static_middleware (fun _ => false) fs "public" "public/img/cat.jpg"
                App_new fresh_socket "GET /img/cat.jpg HTTP/1.1" eq_refl eq_refl)
      as (_ & _ & H).
    destruct (H eq_refl "JFIF" eq_refl) as (res' & H1 & _ & H3 & _).
    exists res'. split; [exact H1 | exact H3].
  - destruct (static_middleware (fun _ => false) fs "public" "public/img/missing.jpg"
                App_new fresh_socket "GET /img/missing.jpg HTTP/1.1" eq_refl eq_refl)
      as (_ & H & _).
    apply H; reflexivity.
  - destruct (static_middleware (fun _ => false) fs "public"
                ("public/a" +:+ String "000" "b")
                App_new fresh_socket ("GET /a" +:+ String "000" "b HTTP/1.1")
                eq_refl eq_refl)
      as (H & _).
    apply H. reflexivity.
Defined.

(** * Further properties *)

(** ** Headers and the wire format *)

Lemma own_define_same (k : string) (v : jsval) (o : jsobj) :
  own k (define k v o) = Some v.
Proof.
  induction o as [|[k' v'] o IH]; simpl.
  - rewrite String.eqb_refl. reflexivity.
  - destruct (String.eqb k' k) eqn:E; simpl.
    + rewrite String.eqb_refl. reflexivity.
    + rewrite E. exact IH.
Qed.

Lemma own_define_other (k k0 : string) (v : jsval) (o : jsobj) :
  k0 <> k -> own k0 (define k v o) = own k0 o.
Proof.
  intros Hne. induction o as [|[k' v'] o IH]; simpl.
  - apply String.eqb_neq in Hne. rewrite String.eqb_sym, Hne. reflexivity.
  - destruct (String.eqb_spec k' k) as [->|Hk]; simpl.
    + destruct (String.eqb_spec k k0) as [->|]; [contradiction | reflexivity].
    + rewrite IH. reflexivity.
Qed.

Lemma names_define (k : string) (v : jsval) (o : jsobj) :
  map fst (define k v o)
  = if hasOwn k o then map fst o else map fst o ++ [k].
Proof.
  unfold hasOwn. induction o as [|[k' v'] o IH]; simpl; [reflexivity|].
  destruct (String.eqb_spec k' k) as [->|Hk]; simpl; [reflexivity|].
  rewrite IH. destruct (own k o); reflexivity.
Qed.

Lemma own_None_names (k : string) (o : jsobj) :
  own k o = None -> ~ In k (map fst o).
Proof.
  induction o as [|[k' v'] o IH]; simpl; [tauto|].
  destruct (String.eqb_spec k' k) as [->|Hk]; [discriminate|].
  intros H [Heq|Hin]; [contradiction | exact (IH H Hin)].
Qed.

(** [set(name, value)]: the header reads back as [value], the other headers are
    untouched, a name that was set before keeps its place and a new one goes
    last.  The name [__proto__] is the exception: the assignment creates no
    header and the response is unchanged. *)
Theorem set_header (name : string) (value : jsval) (r : Response.t) :
  if String.eqb name "__proto__" then Response.set name value r = r
  else
    own name (Response.headers (Response.set name value r)) = Some value
    /\ (forall k, k <> name ->
          own k (Response.headers (Response.set name value r))
          = own k (Response.headers r))
    /\ map fst (Response.headers (Response.set name value r))
       = (if hasOwn name (Response.headers r) then map fst (Response.headers r)
          else map fst (Response.headers r) ++ [name]).
Proof.
  unfold Response.set, js_set.
  destruct (String.eqb name "__proto__").
  - destruct r; reflexivity.
  - cbn [Response.headers Response.with_headers]. split; [apply own_define_same|].
    split; [intros k Hk; apply own_define_other, Hk | apply names_define].
Qed.

(** No header name occurs twice: a new response has no header, and [set] and
    [send] keep the names distinct. *)
Theorem header_names_unique (name : string) (value : jsval) (data : payload)
    (sock : Socket) (statusCode : Z) (version : string) (r : Response.t) :
  List.NoDup (map fst (Response.headers (Response.constructor sock statusCode version)))
  /\ (List.NoDup (map fst (Response.headers r)) ->
      List.NoDup (map fst (Response.headers (Response.set name value r)))
      /\ List.NoDup (map fst (Response.headers (Response.send data r)))).
Proof.
  assert (Hdef : forall k v o, List.NoDup (map fst o) -> List.NoDup (map fst (define k v o))).
  { intros k v o Ho. rewrite names_define. unfold hasOwn.
    destruct (own k o) eqn:E; [exact Ho|].
    apply List.NoDup_app; [exact Ho | |].
    - repeat constructor. simpl. tauto.
    - intros x Hx [<-|[]]. exact (own_None_names _ _ E Hx). }
  split; [constructor|]. intros Hr. split.
  - unfold Response.set, js_set. destruct (String.eqb name "__proto__"); [exact Hr|].
    apply Hdef, Hr.
  - destruct (send_fields data r) as (_ & _ & -> & _).
    unfold with_default_content_type.
    destruct (js_in "Content-Type" (Response.headers r)); [exact Hr|].
    apply Hdef, Hr.
Qed.

Lemma insert_by_index_perm (i : N) (e : string * jsval) (l : list (N * (string * jsval))) :
  Permutation (insert_by_index i e l) ((i, e) :: l).
Proof.
  induction l as [|[j e'] l IH]; simpl; [reflexivity|].
  destruct (i <? j)%N; [reflexivity|].
  rewrite IH. apply perm_swap.
Qed.

Lemma Object_entries_perm (o : jsobj) : Permutation (Object_entries o) o.
Proof.
  unfold Object_entries. induction o as [|[k v] o IH]; simpl; [reflexivity|].
  destruct (array_index k) as [i|].
  - rewrite insert_by_index_perm. simpl. constructor. exact IH.
  - rewrite <- Permutation_middle. constructor. exact IH.
Qed.

Lemma Object_entries_named (o : jsobj) :
  Forall (fun entry => array_index entry.1 = None) o -> Object_entries o = o.
Proof.
  intros Ho.
  assert (H : indexed o = [] /\ named o = o).
  { induction Ho as [|[k v] o Hk Ho [IH1 IH2]]; [split; reflexivity|].
    simpl in *. rewrite Hk, IH1, IH2. split; reflexivity. }
  unfold Object_entries. destruct H as [-> ->]. reflexivity.
Qed.

(** [headersToString] goes through every header exactly once; when no header
    name is an array index, it goes through them in the order they were
    first set. *)
Theorem headers_serialized_once (r : Response.t) :
  Permutation (Object_entries (Response.headers r)) (Response.headers r)
  /\ (Forall (fun entry => array_index entry.1 = None) (Response.headers r) ->
      Object_entries (Response.headers r) = Response.headers r).
Proof. split; [apply Object_entries_perm | apply Object_entries_named]. Qed.

Lemma join_lines (l : list string) :
  l <> [] ->
  join CRLF l +:+ CRLF = concat_strings (map (fun line => line +:+ CRLF) l).
Proof.
  induction l as [|x l IH]; [congruence|]. intros _.
  destruct l as [|y l].
  - simpl. rewrite app_empty_r. reflexivity.
  - rewrite join_cons by discriminate.
    change (concat_strings (map (fun line => line +:+ CRLF) (x :: y :: l)))
      with ((x +:+ CRLF) +:+ concat_strings (map (fun line => line +:+ CRLF) (y :: l))).
    rewrite <- IH by discriminate.
    rewrite !app_assoc_str. reflexivity.
Qed.

Lemma default_content_type_not_empty (r : Response.t) :
  Object_entries (Response.headers (with_default_content_type r)) <> [].
Proof.
  intros H.
  pose proof (Object_entries_perm (Response.headers (with_default_content_type r))) as Hp.
  rewrite H in Hp. apply Permutation_nil in Hp.
  rewrite default_content_type_headers in Hp. unfold hasOwn in Hp.
  destruct (own "Content-Type" (Response.headers r)) eqn:E.
  - rewrite Hp in E. discriminate.
  - destruct (Response.headers r); discriminate.
Qed.

(** The wire format.  On an open connection [send] adds to what the
    connection carried: the status line (version, status code in decimal,
    reason phrase or nothing for a code the table lacks, each followed by a
    space or the final CRLF), one line [name: value] CRLF for each header, a
    blank line, and the body.  With status 301 this needs a body that string
    conversion leaves as it is. *)
Theorem send_wire_format (data : payload) (r : Response.t) :
  ended (Response.sock r) = false ->
  Response.statusCode r <> 301 \/ payload_toString data = payload_bytes data ->
  wire (Response.sock (Response.send data r))
  = wire (Response.sock r)
    +:+ (Response.version r +:+ " " +:+ Number_toString (Response.statusCode r)
         +:+ " " +:+ reason_phrase (Response.statusCode r) +:+ CRLF)
    +:+ concat_strings
          (map header_line (Object_entries (Response.headers (Response.send data r))))
    +:+ CRLF +:+ payload_bytes data.
Proof.
  intros He Hd.
  assert (Hw : written (Response.sock (Response.send data r))
               = written (Response.sock r) ++ separate_writes data r
                 \/ written (Response.sock (Response.send data r))
                    = written (Response.sock r) ++ [concat_strings (separate_writes data r)]).
  { destruct (Z.eq_dec (Response.statusCode r) 301) as [H301|Hn].
    - right. rewrite send_written_at_once by assumption.
      rewrite at_once_is_concat; [reflexivity|].
      destruct Hd; [contradiction | assumption].
    - left. apply send_written_separately; assumption. }
  assert (Hwire : wire (Response.sock (Response.send data r))
                  = wire (Response.sock r) +:+ concat_strings (separate_writes data r)).
  { unfold wire. destruct Hw as [-> | ->]; rewrite concat_strings_app; [reflexivity|].
    simpl. rewrite app_empty_r. reflexivity. }
  rewrite Hwire. f_equal.
  destruct (send_fields data r) as (_ & _ & -> & _).
  destruct (with_default_content_type_frame r) as (Hc & Hv & _).
  unfold separate_writes, concat_strings. cbv zeta.
  unfold Response.statusLineToString, Response.headersToString.
  rewrite Hc, Hv. fold (reason_phrase (Response.statusCode r)).
  rewrite join_cons by discriminate. rewrite join_cons by discriminate.
  cbn [join].
  assert (Hmap : map (fun arr : string * jsval => let '(name, val) := arr in
                        name +:+ ": " +:+ jsval_toString val)
                   (Object_entries (Response.headers (with_default_content_type r)))
                 = map (fun entry => entry.1 +:+ ": " +:+ jsval_toString entry.2)
                     (Object_entries (Response.headers (with_default_content_type r)))).
  { apply map_ext. intros [? ?]. reflexivity. }
  rewrite Hmap.
  rewrite join_lines.
  2:{ intros H. apply map_eq_nil in H. exact (default_content_type_not_empty r H). }
  rewrite map_map.
  rewrite (map_ext _ header_line)
    by (intros [? ?]; unfold header_line; simpl; rewrite !app_assoc_str; reflexivity).
  rewrite app_empty_r, !app_assoc_str. reflexivity.
Qed.

(** ** Requests and route keys *)

Lemma lacks_false_split (c : ascii) (s : string) :
  lacks c s = false ->
  exists a b, s = a +:+ String c b /\ lacks c a = true.
Proof.
  induction s as [|d s IH]; [discriminate|].
  simpl. destruct (Ascii.eqb_spec d c) as [->|Hd]; simpl.
  - intros _. exists "", s. split; reflexivity.
  - intros H. destruct (IH H) as (a & b & -> & Ha).
    exists (String d a), b. split; [reflexivity|].
    simpl. apply Ascii.eqb_neq in Hd. rewrite Hd, Ha. reflexivity.
Qed.

Lemma Request_of_spaceless (s : string) :
  lacks " " s = true ->
  Request.constructor s
  = {| Request.method := Some s; Request.path := None; Request.others := [] |}.
Proof.
  intros H. unfold Request.constructor, split.
  rewrite <- (app_empty_r s) at 1 2 3.
  rewrite split_from_app by exact H. reflexivity.
Qed.

(** A text without a space is all method: the path is [undefined] and nothing
    remains.  A text with a space always has a path, possibly empty. *)
Theorem request_without_space (s : string) :
  (lacks " " s = true ->
   Request.constructor s
   = {| Request.method := Some s; Request.path := None; Request.others := [] |})
  /\ (lacks " " s = false -> is_Some (Request.path (Request.constructor s))).
Proof.
  split; [apply Request_of_spaceless|]. unfold Request.constructor, split.
  - intros H. destruct (lacks_false_split _ _ H) as (a & b & -> & Ha).
    rewrite split_from_app by exact Ha. simpl.
    destruct (split_from " " "" b) eqn:E; [|simpl; eauto].
    exfalso. exact (split_from_not_nil _ _ _ E).
Qed.

Lemma app_sep_inj (c : ascii) (a a' b b' : string) :
  lacks c a = true -> lacks c a' = true ->
  a +:+ String c b = a' +:+ String c b' -> a = a' /\ b = b'.
Proof.
  revert a'. induction a as [|d a IH]; intros [|d' a'] Ha Ha' H.
  - injection H as ->. split; reflexivity.
  - rewrite app_cons in H. injection H as <- _. simpl in Ha'.
    rewrite Ascii.eqb_refl in Ha'. discriminate.
  - rewrite app_cons in H. injection H as -> _. simpl in Ha.
    rewrite Ascii.eqb_refl in Ha. discriminate.
  - rewrite !app_cons in H. injection H as -> H.
    simpl in Ha, Ha'. apply andb_prop in Ha as [_ Ha]. apply andb_prop in Ha' as [_ Ha'].
    destruct (IH a' Ha Ha' H) as [-> ->]. split; reflexivity.
Qed.

Lemma upper_char_space (d : ascii) :
  Ascii.eqb (upper_char d) " " = Ascii.eqb d " ".
Proof. each_char d; reflexivity. Qed.

Lemma lacks_space_upper (m : string) :
  lacks " " (toUpperCase m) = lacks " " m.
Proof.
  unfold toUpperCase. induction m as [|d m IH]; [reflexivity|].
  simpl. rewrite upper_char_space, IH. reflexivity.
Qed.

Section RouteKeys.
Variable authority_ok : string -> bool.

(** A route key identifies the route: for ASCII methods without a space (as
    [GET], and every method of ASCII text that a request carries), equal keys
    mean equal upper-cased methods and equal normalized paths. *)
Theorem route_key_injective (m m' : string) (p p' : option string) (key : string) :
  ascii_text m = true -> ascii_text m' = true ->
  lacks " " m = true -> lacks " " m' = true ->
  createRouteKey authority_ok (Some m) p = Ok key ->
  createRouteKey authority_ok (Some m') p' = Ok key ->
  toUpperCase m = toUpperCase m'
  /\ normalizePath authority_ok p = normalizePath authority_ok p'.
Proof.
  intros _ _ Hm Hm' (n & Hn & ->)%createRouteKey_inv (n' & Hn' & Heq)%createRouteKey_inv.
  apply app_sep_inj in Heq as [-> ->]; try (rewrite lacks_space_upper; assumption).
  split; [reflexivity | congruence].
Qed.

Lemma get_all_only_get (registrations : list (string * handler)) :
  forall app app',
  (forall key, is_Some (routes app !! key) -> exists n, key = "GET " +:+ n) ->
  get_all authority_ok registrations app = Ok app' ->
  forall key, is_Some (routes app' !! key) -> exists n, key = "GET " +:+ n.
Proof.
  induction registrations as [|[p h] regs IH]; intros app app' Hinv H.
  - injection H as <-. exact Hinv.
  - simpl in H. destruct (get authority_ok p h app) as [app1|e] eqn:E; [|discriminate].
    simpl in H. apply (IH app1 app'); [|exact H].
    apply get_inv in E as (n & _ & ->). simpl. intros key Hk.
    destruct (decide (key = "GET " +:+ n)) as [->|Hne]; [eauto|].
    rewrite lookup_insert_ne in Hk by congruence. apply Hinv, Hk.
Qed.

(** [get] is the only way to register a handler, so a request whose method is
    not GET (in any letter case) reaches none: it is answered as not found,
    whatever was registered. *)
Theorem only_get_requests_reach_handlers (registrations : list (string * handler))
    (app : App) (req : Request.t) (res : Response.t) (m n : string) :
  get_all authority_ok registrations App_new = Ok app ->
  Request.method req = Some m ->
  lacks " " m = true ->
  toUpperCase m <> "GET" ->
  normalizePath authority_ok (Request.path req) = Ok n ->
  processRoutes authority_ok app req res
  = Ok (Response.send (Text "Page not found") (Response.assign_status 404 res)).
Proof.
  intros Hall Hm Hl Hup Hn.
  apply processRoutes_miss with (key := toUpperCase m +:+ " " +:+ n).
  - rewrite Hm. unfold createRouteKey. rewrite Hn. reflexivity.
  - destruct (routes app !! (toUpperCase m +:+ " " +:+ n)) as [h|] eqn:E; [|reflexivity].
    exfalso.
    destruct (get_all_only_get registrations App_new app) with
      (key := toUpperCase m +:+ " " +:+ n) as (n' & Hkey); [| exact Hall | eauto |].
    { intros key [h' Hh']. simpl in Hh'. rewrite lookup_empty in Hh'. discriminate. }
    change ("GET " +:+ n') with ("GET" +:+ String " " n') in Hkey.
    apply app_sep_inj in Hkey as [Hkey _];
      [contradiction | rewrite lacks_space_upper; exact Hl | reflexivity].
Qed.

(** A request text without a space has no path; the route key is then built
    from the text [undefined] glued onto the host.  Where the host parser
    accepts [127.0.0.1undefined], the path name is [/] and a bare [GET] is
    dispatched to the handler registered for [/]. *)
Theorem pathless_request_reaches_root (app app' : App) (callback : handler)
    (text : string) (res : Response.t) :
  authority_ok "undefined" = true ->
  lacks " " text = true ->
  toUpperCase text = "GET" ->
  get authority_ok "/" callback app = Ok app' ->
  Request.path (Request.constructor text) = None
  /\ processRoutes authority_ok app' (Request.constructor text) res
     = callback (Request.constructor text) res.
Proof.
  intros Hok Hl Hup Hget.
  rewrite (Request_of_spaceless text Hl).
  split; [reflexivity|].
  apply (dispatch_after_get authority_ok app app' "/" callback _ res text Hget);
    [reflexivity | exact Hup |].
  simpl. unfold normalizePath, URL_pathname. simpl. rewrite Hok. reflexivity.
Qed.

End RouteKeys.

(** ** More on path normalization *)

(** A normalized path is canonical: it holds no upper-case letter, no space
    or control character, no [?], [#] or backslash and no byte above 126 (all
    these are percent-encoded, cut off or lower-cased), and it is empty or
    starts with a slash. *)
Theorem normalized_path_canonical (ok : string -> bool) (reqPath : option string)
    (q : string) :
  normalizePath ok reqPath = Ok q ->
  all_chars path_char q = true
  /\ toLowerCase q = q
  /\ (q = "" \/ starts_with_slash q = true).
Proof.
  intros (l & Hl & ->)%normalizePath_shape. split; [|split].
  - apply serialize_path_chars, Forall_lower_settled, Hl.
  - rewrite toLowerCase_serialize_path, map_lower_fixed by exact Hl. reflexivity.
  - destruct l; [left | right]; reflexivity.
Qed.

(** *** Query strings and fragments *)

Lemma strip_trailing_cons_visible (c : ascii) (s : string) :
  is_C0_or_space c = false -> strip_trailing (String c s) = String c (strip_trailing s).
Proof. intros H. simpl. rewrite H. destruct (strip_trailing s); reflexivity. Qed.

Lemma strip_trailing_app (s t : string) :
  strip_trailing t <> "" -> strip_trailing (s +:+ t) = s +:+ strip_trailing t.
Proof.
  intros Ht. induction s as [|d s IH]; [reflexivity|].
  rewrite !app_cons. simpl. rewrite IH.
  destruct (s +:+ strip_trailing t) eqn:E; [|reflexivity].
  destruct s; [|discriminate E]. rewrite app_empty_l in E. contradiction.
Qed.

Lemma remove_tab_newline_app (s t : string) :
  remove_tab_newline (s +:+ t) = remove_tab_newline s +:+ remove_tab_newline t.
Proof.
  induction s as [|d s IH]; [reflexivity|].
  rewrite app_cons. simpl. rewrite IH.
  destruct (is_tab_or_newline d); reflexivity.
Qed.

Lemma split_authority_app (s q : string) (c : ascii) :
  is_slash c || is_query_or_fragment c = true ->
  split_authority (s +:+ String c q)
  = ((split_authority s).1, (split_authority s).2 +:+ String c q).
Proof.
  intros Hc. induction s as [|d s IH].
  - rewrite app_empty_l. simpl. rewrite Hc. reflexivity.
  - rewrite app_cons. simpl.
    destruct (is_slash d || is_query_or_fragment d); [reflexivity|].
    rewrite IH. destruct (split_authority s). reflexivity.
Qed.

Lemma path_state_cut (t q buf : string) (acc : list string) (c : ascii) :
  is_query_or_fragment c = true ->
  path_state (t +:+ String c q) buf acc = path_state t buf acc.
Proof.
  intros Hc. assert (Hs : is_slash c = false) by (revert Hc; each_char c; intros H; try discriminate H; reflexivity).
  revert buf acc. induction t as [|d t IH]; intros buf acc.
  - rewrite app_empty_l. simpl. rewrite Hs, Hc. reflexivity.
  - rewrite app_cons. simpl.
    destruct (is_slash d); [apply IH|].
    destruct (is_query_or_fragment d); [reflexivity | apply IH].
Qed.

Lemma path_start_state_cut (t q : string) (c : ascii) :
  is_query_or_fragment c = true ->
  path_start_state (t +:+ String c q) = path_start_state t.
Proof.
  intros Hc. unfold path_start_state. destruct t as [|d t].
  - rewrite app_empty_l.
    assert (Hs : is_slash c = false) by (revert Hc; each_char c; intros H; try discriminate H; reflexivity).
    rewrite Hs. apply (path_state_cut "" q "" [] c Hc).
  - rewrite app_cons. destruct (is_slash d).
    + apply path_state_cut, Hc.
    + apply (path_state_cut (String d t) q "" [] c Hc).
Qed.

(** What follows a [?] or a [#] plays no part in routing: appending a query
    string or a fragment to a path (one that does not end in a space or a
    control character, which the URL parser would trim) leaves the normalized
    path as it is. *)
Theorem query_and_fragment_ignored (ok : string -> bool) (p q : string) (c : ascii) :
  is_query_or_fragment c = true ->
  strip_trailing p = p ->
  normalizePath ok (Some (p +:+ String c q)) = normalizePath ok (Some p).
Proof.
  intros Hc Hp.
  assert (Hv : is_C0_or_space c = false /\ is_tab_or_newline c = false)
    by (revert Hc; each_char c; intros H; try discriminate H; split; reflexivity).
  destruct Hv as [Hv1 Hv2].
  unfold normalizePath, URL_pathname. simpl string_of_operand.
  rewrite strip_trailing_app
    by (rewrite strip_trailing_cons_visible by exact Hv1; discriminate).
  rewrite strip_trailing_cons_visible by exact Hv1.
  rewrite Hp, remove_tab_newline_app. simpl remove_tab_newline at 2. rewrite Hv2.
  rewrite split_authority_app by (rewrite Hc; apply orb_true_r).
  destruct (split_authority (remove_tab_newline p)) as [a t]. simpl fst. simpl snd.
  rewrite path_start_state_cut by exact Hc. reflexivity.
Qed.

(** *** Letter case *)

Lemma lower_char_classes (c : ascii) :
  is_C0_or_space (lower_char c) = is_C0_or_space c
  /\ is_tab_or_newline (lower_char c) = is_tab_or_newline c
  /\ is_slash (lower_char c) = is_slash c
  /\ is_query_or_fragment (lower_char c) = is_query_or_fragment c
  /\ toLowerCase (encode_path_char (lower_char c)) = toLowerCase (encode_path_char c).
Proof. each_char c; repeat split. Qed.

Lemma strip_trailing_lower (s : string) :
  strip_trailing (toLowerCase s) = toLowerCase (strip_trailing s).
Proof.
  unfold toLowerCase. induction s as [|c s IH]; [reflexivity|].
  simpl. rewrite IH. destruct (lower_char_classes c) as (-> & _).
  destruct (strip_trailing s); simpl; [destruct (is_C0_or_space c)|]; reflexivity.
Qed.

Lemma remove_tab_newline_lower (s : string) :
  remove_tab_newline (toLowerCase s) = toLowerCase (remove_tab_newline s).
Proof.
  unfold toLowerCase. induction s as [|c s IH]; [reflexivity|].
  simpl. rewrite IH. destruct (lower_char_classes c) as (_ & -> & _).
  destruct (is_tab_or_newline c); reflexivity.
Qed.

Lemma map_removelast {A B} (f : A -> B) (l : list A) :
  map f (removelast l) = removelast (map f l).
Proof.
  induction l as [|x l IH]; [reflexivity|].
  simpl. destruct l; [reflexivity|]. simpl in *. rewrite IH. reflexivity.
Qed.

Lemma close_segment_lower (b1 b2 : string) (at_slash : bool) (a1 a2 : list string) :
  toLowerCase b1 = toLowerCase b2 ->
  map toLowerCase a1 = map toLowerCase a2 ->
  map toLowerCase (close_segment b1 at_slash a1)
  = map toLowerCase (close_segment b2 at_slash a2).
Proof.
  intros Hb Ha. unfold close_segment, is_double_dot, is_single_dot, shorten.
  cbv zeta. rewrite Hb.
  repeat match goal with |- context [if ?b then _ else _] => destruct b end;
    rewrite ?map_app, ?map_removelast, ?Ha; simpl; rewrite ?Hb; reflexivity.
Qed.

Lemma path_state_lower (input : string) :
  forall b1 b2 a1 a2,
  toLowerCase b1 = toLowerCase b2 ->
  map toLowerCase a1 = map toLowerCase a2 ->
  map toLowerCase (path_state (toLowerCase input) b1 a1)
  = map toLowerCase (path_state input b2 a2).
Proof.
  induction input as [|c input IH]; intros b1 b2 a1 a2 Hb Ha.
  - apply close_segment_lower; assumption.
  - change (toLowerCase (String c input)) with (String (lower_char c) (toLowerCase input)).
    simpl. destruct (lower_char_classes c) as (_ & _ & -> & -> & He).
    destruct (is_slash c).
    + apply IH; [reflexivity | apply close_segment_lower; assumption].
    + destruct (is_query_or_fragment c); [apply close_segment_lower; assumption|].
      apply IH; [|exact Ha]. rewrite !toLowerCase_app, Hb, He. reflexivity.
Qed.

Lemma preprocess_slash (s : string) :
  remove_tab_newline (strip_trailing (String "/" s))
  = String "/" (remove_tab_newline (strip_trailing s)).
Proof. rewrite strip_trailing_cons_visible by reflexivity. reflexivity. Qed.

Lemma normalizePath_lower (ok : string -> bool) (p : string) :
  starts_with_slash p = true ->
  normalizePath ok (Some (toLowerCase p)) = normalizePath ok (Some p).
Proof.
  destruct p as [|c p]; [discriminate|]. simpl.
  intros ->%Ascii.eqb_eq.
  unfold normalizePath, URL_pathname. simpl string_of_operand.
  change (toLowerCase (String "/" p)) with (String "/" (toLowerCase p)).
  rewrite !preprocess_slash. cbn [split_authority is_slash Ascii.eqb orb].
  change (is_slash "/") with true. cbn [orb].
  cbn [String.eqb bind]. unfold path_start_state.
  change (is_slash "/") with true. cbv iota.
  cbn [orb bind].
  rewrite !toLowerCase_serialize_path.
  rewrite strip_trailing_lower, remove_tab_newline_lower.
  rewrite (path_state_lower _ "" "" [] []); reflexivity.
Qed.

(** Routing ignores the case of ASCII letters in the path: two paths that
    start with a slash and are equal once their ASCII letters are lower-cased
    have the same normalized path. *)
Theorem path_case_ignored (ok : string -> bool) (p p' : string) :
  starts_with_slash p = true ->
  toLowerCase p = toLowerCase p' ->
  normalizePath ok (Some p) = normalizePath ok (Some p').
Proof.
  intros Hp Heq.
  assert (Hp' : starts_with_slash p' = true).
  { destruct p as [|c p]; [discriminate|]. destruct p' as [|c' p']; [discriminate|].
    simpl in *. apply Ascii.eqb_eq in Hp. subst c.
    injection Heq as Hc _. revert Hc. each_char c'; intros H; try discriminate H; reflexivity. }
  rewrite <- (normalizePath_lower ok p Hp), <- (normalizePath_lower ok p' Hp'), Heq.
  reflexivity.
Qed.

(** *** A trailing slash *)

Lemma path_state_scan (t rest : string) :
  all_chars path_text_char t = true ->
  forall buf acc,
  path_state (t +:+ rest) buf acc
  = path_state rest (path_scan t buf acc).1 (path_scan t buf acc).2.
Proof.
  induction t as [|c t IH]; intros Ht buf acc; [reflexivity|].
  simpl in Ht. apply andb_prop in Ht as [Hc Ht].
  unfold path_text_char in Hc. apply andb_prop in Hc as [_ Hq].
  apply negb_true_iff in Hq.
  rewrite app_cons. simpl. destruct (is_slash c); [apply IH, Ht|].
  rewrite Hq. apply IH, Ht.
Qed.

Lemma encode_path_char_not_empty (c : ascii) : encode_path_char c <> "".
Proof. unfold encode_path_char, percent_encode. destruct (path_percent_encode_set c); discriminate. Qed.

Lemma app_not_empty_r (s t : string) : t <> "" -> s +:+ t <> "".
Proof. destruct s; [rewrite app_empty_l; auto | discriminate]. Qed.

Lemma path_scan_buffer (t : string) :
  all_chars path_text_char t = true ->
  forall buf acc,
  all_chars plain_char buf = true ->
  all_chars plain_char (path_scan t buf acc).1 = true
  /\ (t <> "" -> endsWith t "/" = false -> endsWith t "\" = false ->
      (path_scan t buf acc).1 <> "").
Proof.
  induction t as [|c t IH]; intros Ht buf acc Hb; [split; [exact Hb | congruence]|].
  simpl in Ht. apply andb_prop in Ht as [Hc Ht].
  unfold path_text_char in Hc. apply andb_prop in Hc as [_ Hq].
  apply negb_true_iff in Hq.
  simpl path_scan. destruct (is_slash c) eqn:Hs.
  - destruct (IH Ht "" (close_segment buf true acc) eq_refl) as [H1 H2].
    split; [exact H1|]. intros _ E1 E2. destruct t as [|d t].
    + exfalso. simpl in E1, E2. unfold is_slash in Hs.
      rewrite E1, E2 in Hs. discriminate.
    + apply H2; [discriminate | exact E1 | exact E2].
  - assert (Hb' : all_chars plain_char (buf +:+ encode_path_char c) = true).
    { rewrite all_chars_app, Hb, encode_path_char_plain by assumption. reflexivity. }
    destruct (IH Ht _ acc Hb') as [H1 H2].
    split; [exact H1|]. intros _ E1 E2. destruct t as [|d t].
    + simpl. apply app_not_empty_r, encode_path_char_not_empty.
    + apply H2; [discriminate | exact E1 | exact E2].
Qed.

Lemma toLowerCase_not_empty (s : string) : s <> "" -> toLowerCase s <> "".
Proof. destruct s; [congruence | discriminate]. Qed.

(** With or without a final slash, the path state gives the same normalized
    text. *)
Lemma path_state_final_slash (u : string) (buf : string) (acc : list string) :
  all_chars path_text_char u = true ->
  u <> "" -> endsWith u "/" = false -> endsWith u "\" = false ->
  all_chars plain_char buf = true ->
  strip_one_slash (toLowerCase (serialize_path (path_state (u +:+ "/") buf acc)))
  = strip_one_slash (toLowerCase (serialize_path (path_state u buf acc))).
Proof.
  intros Hu Hne E1 E2 Hb.
  rewrite (path_state_scan u "/" Hu).
  rewrite <- (app_empty_r u) at 3. rewrite (path_state_scan u "" Hu).
  destruct (path_scan_buffer u Hu buf acc Hb) as [Hplain Hnonempty].
  specialize (Hnonempty Hne E1 E2).
  destruct (path_scan u buf acc) as [b X]. simpl fst in *. simpl snd in *.
  simpl path_state.
  unfold close_segment at 1. change (is_double_dot "") with false.
  change (is_single_dot "") with false. cbv iota.
  unfold close_segment.
  destruct (is_double_dot b) eqn:Hdd; [reflexivity|].
  destruct (is_single_dot b) eqn:Hsd; [reflexivity|].
  rewrite !toLowerCase_serialize_path, !map_app. simpl map.
  rewrite (strip_serialized _ "" eq_refl).
  rewrite (strip_serialized _ (toLowerCase b)) by (apply all_plain_lower, Hplain).
  destruct (String.eqb_spec (toLowerCase b) "") as [E|_]; [|reflexivity].
  exfalso. exact (toLowerCase_not_empty b Hnonempty E).
Qed.

Lemma split_authority_eq (s : string) :
  s = (split_authority s).1 +:+ (split_authority s).2.
Proof.
  induction s as [|c s IH]; [reflexivity|]. simpl.
  destruct (is_slash c || is_query_or_fragment c); [reflexivity|].
  destruct (split_authority s) as [a t]. simpl in *. rewrite app_cons, <- IH.
  reflexivity.
Qed.

Lemma path_text_visible (s : string) :
  all_chars path_text_char s = true ->
  strip_trailing s = s /\ remove_tab_newline s = s.
Proof.
  induction s as [|c s IH]; [split; reflexivity|].
  simpl. intros [Hc Hs]%andb_prop. destruct (IH Hs) as [-> ->].
  assert (Hv : is_C0_or_space c = false /\ is_tab_or_newline c = false).
  { revert Hc. each_char c; intros H; try discriminate H; split; reflexivity. }
  destruct Hv as [-> ->]. split; [destruct s|]; reflexivity.
Qed.

(** Routing ignores one trailing slash: for a path without space, control
    character, [?] or [#] that does not end in a slash or a backslash, the
    path followed by a slash has the same normalized path. *)
Theorem trailing_slash_ignored (ok : string -> bool) (p : string) :
  all_chars path_text_char p = true ->
  endsWith p "/" = false -> endsWith p "\" = false ->
  normalizePath ok (Some (p +:+ "/")) = normalizePath ok (Some p).
Proof.
  intros Hp E1 E2.
  assert (Hp' : all_chars path_text_char (p +:+ "/") = true)
    by (rewrite all_chars_app, Hp; reflexivity).
  unfold normalizePath, URL_pathname. simpl string_of_operand.
  destruct (path_text_visible _ Hp) as [-> ->].
  destruct (path_text_visible _ Hp') as [-> ->].
  rewrite split_authority_app by reflexivity.
  pose proof (split_authority_eq p) as Heq.
  destruct (split_authority p) as [a t]. simpl fst in *. simpl snd in *.
  destruct (String.eqb a "" || ok a); [|reflexivity]. cbn [bind].
  f_equal. fold (strip_one_slash (toLowerCase (serialize_path (path_start_state (t +:+ "/"))))).
  fold (strip_one_slash (toLowerCase (serialize_path (path_start_state t)))).
  destruct t as [|d t]; [reflexivity|].
  assert (Ht : all_chars path_text_char (String d t) = true).
  { rewrite Heq, all_chars_app in Hp. apply andb_prop in Hp as [_ H]. exact H. }
  assert (Et : forall x, endsWith (String d t) x = endsWith p x).
  { intros x. rewrite Heq. symmetry. apply endsWith_app. discriminate. }
  rewrite <- Et in E1, E2.
  unfold path_start_state. rewrite app_cons. destruct (is_slash d) eqn:Hd.
  - destruct t as [|e t].
    + exfalso. simpl in E1, E2. unfold is_slash in Hd. rewrite E1, E2 in Hd. discriminate.
    + simpl in Ht. apply andb_prop in Ht as [_ Ht].
      apply path_state_final_slash; [exact Ht | discriminate | exact E1 | exact E2 | reflexivity].
  - rewrite <- app_cons.
    apply path_state_final_slash; [exact Ht | discriminate | exact E1 | exact E2 | reflexivity].
Qed.

(** ** More on the static-file middleware *)

Lemma lacks_not_ended (c : ascii) (s : string) :
  lacks c s = true -> endsWith s c = false.
Proof.
  induction s as [|d s IH]; [reflexivity|].
  simpl. intros [Hd Hs]%andb_prop. apply negb_true_iff in Hd.
  destruct s; [exact Hd | apply IH, Hs].
Qed.

Lemma file_name_inv (s : string) :
  file_name s = true ->
  String.eqb s "" = false /\ lacks "/" s = true
  /\ String.eqb s "." = false /\ String.eqb s ".." = false.
Proof.
  unfold file_name.
  intros [[[[H1 H2]%andb_prop _]%andb_prop H3]%andb_prop H4]%andb_prop.
  apply negb_true_iff in H1, H3, H4. auto.
Qed.

Lemma file_name_no_NUL (s : string) : file_name s = true -> holds_NUL s = false.
Proof.
  unfold file_name.
  intros [[[_ H]%andb_prop _]%andb_prop _]%andb_prop.
  apply negb_true_iff, H.
Qed.

Lemma join_above_base (base f : string) :
  file_name base = true -> file_name f = true ->
  path_posix_join base (Some ("/../" +:+ f)) = Ok f.
Proof.
  intros (Hb1 & Hb2 & Hb3 & Hb4)%file_name_inv (Hf1 & Hf2 & Hf3 & Hf4)%file_name_inv.
  unfold path_posix_join.
  assert (Hbne : base <> "") by (apply String.eqb_neq, Hb1).
  rewrite filter_cons_True by exact Hbne.
  rewrite filter_cons_True by discriminate. rewrite filter_nil.
  cbn [join]. unfold path_posix_normalize.
  assert (Hne : String.eqb (base +:+ "/" +:+ "/../" +:+ f) "" = false).
  { destruct base; [congruence | reflexivity]. }
  rewrite Hne.
  assert (Habs : starts_with_slash (base +:+ "/" +:+ "/../" +:+ f) = false).
  { destruct base as [|c base]; [congruence|]. simpl in Hb2 |- *.
    apply andb_prop in Hb2 as [Hc _]. apply negb_true_iff in Hc. exact Hc. }
  rewrite Habs.
  assert (Hend : endsWith (base +:+ "/" +:+ "/../" +:+ f) "/" = false).
  { rewrite <- !app_assoc_str. rewrite endsWith_app by (apply String.eqb_neq, Hf1).
    apply lacks_not_ended, Hf2. }
  rewrite Hend.
  assert (Hsplit : split "/" (base +:+ "/" +:+ "/../" +:+ f) = [base; ""; ".."; f]).
  { unfold split. rewrite split_from_app by exact Hb2.
    rewrite app_empty_l.
    change ("/" +:+ "/../" +:+ f) with (String "/" (String "/" (".." +:+ String "/" f))).
    cbn [split_from Ascii.eqb]. change (Ascii.eqb "/" "/") with true. cbv iota.
    f_equal. rewrite app_empty_l. f_equal.
    rewrite (split_from_app "/" "" ".." (String "/" f)) by reflexivity.
    rewrite app_empty_l. cbn [split_from]. change (Ascii.eqb "/" "/") with true.
    cbv iota. f_equal.
    rewrite <- (app_empty_r f) at 1. rewrite split_from_app by exact Hf2.
    reflexivity. }
  rewrite Hsplit. cbn [normalize_segments negb].
  change (String.eqb "" "") with true. change (String.eqb ".." "") with false.
  change (String.eqb ".." ".") with false. change (String.eqb ".." "..") with true.
  rewrite Hb1, Hb3. cbn [orb]. rewrite Hb4.
  rewrite Hf1, Hf3. cbn [orb]. rewrite Hf4. cbn [rev app join]. rewrite Hf1.
  reflexivity.
Qed.

(** The static-file middleware joins the base directory and the raw request
    path, and the join resolves [..]: a request for [/../f] reads the file [f]
    that lies beside the base directory, outside of it, and serves it. *)
Theorem static_serves_outside_base (fs : FileSystem) (base f data : string)
    (res : Response.t) (next : Response.t -> result Response.t) :
  file_name base = true -> file_name f = true ->
  lacks " " f = true ->
  fs f = Some data ->
  path_posix_join base
    (Request.path (Request.constructor ("GET /../" +:+ f +:+ " HTTP/1.1"))) = Ok f
  /\ serveStatic fs base (Request.constructor ("GET /../" +:+ f +:+ " HTTP/1.1")) res next
     = Ok (Response.send (Buffer data)
             (Response.set "Content-Type" (getMIMEType f) res)).
Proof.
  intros Hb Hf Hsp Hfs.
  assert (Hpath : Request.path (Request.constructor ("GET /../" +:+ f +:+ " HTTP/1.1"))
                  = Some ("/../" +:+ f)).
  { unfold Request.constructor, split.
    change ("GET /../" +:+ f +:+ " HTTP/1.1")
      with ("GET" +:+ String " " (("/../" +:+ f) +:+ String " " "HTTP/1.1")).
    rewrite split_from_app by reflexivity. cbn [split_from].
    change (Ascii.eqb " " " ") with true. cbv iota.
    rewrite split_from_app by (rewrite lacks_app, Hsp; reflexivity).
    reflexivity. }
  assert (Hj : path_posix_join base
                 (Request.path (Request.constructor ("GET /../" +:+ f +:+ " HTTP/1.1")))
               = Ok f).
  { rewrite Hpath. apply join_above_base; assumption. }
  split; [exact Hj|].
  apply serveStatic_serves with (filePath := f);
    [exact Hj | apply file_name_no_NUL, Hf | exact Hfs].
Qed.

Section PathlessRequests.
Variable authority_ok : string -> bool.

(** With the static-file middleware in place, a request text without a
    space (no path) makes [path.posix.join] throw: [handleRequest] raises the
    error and nothing is written, whatever the routes and the files are. *)
Theorem static_throws_on_pathless_request (fs : FileSystem) (basePath : string)
    (app : App) (sock : Socket) (binaryData : string) :
  lacks " " (Buffer_toString binaryData) = true ->
  handleRequest authority_ok (use (serveStatic fs basePath) app) sock binaryData
  = Throw ERR_INVALID_ARG_TYPE.
Proof.
  intros H. unfold handleRequest, use. cbn [middleware].
  rewrite (Request_of_spaceless _ H). reflexivity.
Qed.
End PathlessRequests.

(** *** MIME types *)





(** ** From the bytes to the handler *)

Lemma Request_of_line (m p rest : string) :
  lacks " " m = true -> lacks " " p = true ->
  Request.constructor (m +:+ " " +:+ p +:+ " " +:+ rest)
  = {| Request.method := Some m; Request.path := Some p;
       Request.others := split " " rest |}.
Proof.
  intros Hm Hp. unfold Request.constructor, split.
  change (m +:+ " " +:+ p +:+ " " +:+ rest) with (m +:+ String " " (p +:+ String " " rest)).
  rewrite split_from_app by exact Hm. cbn [split_from].
  change (Ascii.eqb " " " ") with true. cbv iota.
  rewrite split_from_app by exact Hp. cbn [split_from].
  change (Ascii.eqb " " " ") with true. cbv iota.
  rewrite !app_empty_l. reflexivity.
Qed.

Section EndToEnd.
Variable authority_ok : string -> bool.

Lemma get_all_middleware (registrations : list (string * handler)) :
  forall app app', get_all authority_ok registrations app = Ok app' ->
  middleware app' = middleware app.
Proof.
  induction registrations as [|[p h] regs IH]; intros app app' H.
  - injection H as <-. reflexivity.
  - simpl in H. destruct (get authority_ok p h app) as [app1|e] eqn:E; [|discriminate].
    simpl in H. rewrite (IH _ _ H).
    apply get_inv in E as (n & _ & ->). reflexivity.
Qed.

Lemma get_all_lookup (app app' : App) (before after : list (string * handler))
    (reqPath n : string) (callback : handler) :
  get_all authority_ok (before ++ (reqPath, callback) :: after) app = Ok app' ->
  normalizePath authority_ok (Some reqPath) = Ok n ->
  Forall (fun reg => normalizePath authority_ok (Some reg.1) <> Ok n) after ->
  routes app' !! ("GET " +:+ n) = Some callback.
Proof.
  intros Hall Hn Hafter. rewrite get_all_app in Hall.
  destruct (get_all authority_ok before app) as [app0|e]; [|discriminate].
  simpl in Hall.
  destruct (get authority_ok reqPath callback app0) as [app1|e] eqn:E; [|discriminate].
  simpl in Hall. apply get_inv in E as (n' & Hn' & ->).
  assert (n' = n) as -> by congruence.
  rewrite (get_all_keeps authority_ok after n Hafter _ _ Hall). simpl.
  apply lookup_insert_eq.
Qed.

(** From the bytes to the handler.  On an application set up by calls of
    [get] only (no middleware), a chunk whose text is a method, a space, a
    path, a space and the rest, with a method that is GET in any letter case
    and a path that normalizes as a registered one does, makes
    [handleRequest] call the handler registered for it (the last one, if
    several collide) with the parsed request and a new response on the
    socket. *)
Theorem request_bytes_reach_handler (app : App)
    (before after : list (string * handler)) (reqPath : string) (callback : handler)
    (sock : Socket) (binaryData m p rest : string) :
  get_all authority_ok (before ++ (reqPath, callback) :: after) App_new = Ok app ->
  Forall (fun reg => normalizePath authority_ok (Some reg.1)
                     <> normalizePath authority_ok (Some reqPath)) after ->
  Buffer_toString binaryData = m +:+ " " +:+ p +:+ " " +:+ rest ->
  lacks " " m = true -> lacks " " p = true ->
  toUpperCase m = "GET" ->
  normalizePath authority_ok (Some p) = normalizePath authority_ok (Some reqPath) ->
  handleRequest authority_ok app sock binaryData
  = callback {| Request.method := Some m; Request.path := Some p;
                Request.others := split " " rest |} (Response.new sock).
Proof.
  intros Hall Hafter Htext Hm Hp Hup Hnorm.
  unfold handleRequest. rewrite (get_all_middleware _ _ _ Hall). cbn [middleware App_new].
  rewrite Htext, (Request_of_line m p rest Hm Hp).
  destruct (normalizePath authority_ok (Some reqPath)) as [n|e] eqn:Hn.
  - apply processRoutes_hit with (key := "GET " +:+ n).
    + cbn [Request.method Request.path]. unfold createRouteKey. rewrite Hnorm, Hup.
      reflexivity.
    + apply (get_all_lookup App_new app before after reqPath n callback Hall Hn Hafter).
  - exfalso. rewrite get_all_app in Hall.
    destruct (get_all authority_ok before App_new) as [app0|]; [|discriminate].
    simpl in Hall. unfold get, createRouteKey in Hall. rewrite Hn in Hall. discriminate.
Qed.

End EndToEnd.

(** ** The tags page *)

Lemma sort_insert_perm (cmp : string -> string -> Z) (x : string) (l : list string) :
  Permutation (Tags.sort_insert cmp x l) (x :: l).
Proof.
  induction l as [|y l IH]; simpl; [reflexivity|].
  destruct (cmp x y <=? 0); [reflexivity|]. rewrite IH. apply perm_swap.
Qed.

Lemma Array_sort_perm (cmp : string -> string -> Z) (l : list string) :
  Permutation (Tags.Array_sort cmp l) l.
Proof.
  induction l as [|x l IH]; simpl; [reflexivity|].
  rewrite sort_insert_perm. constructor. exact IH.
Qed.

Lemma insert_key_perm (i : N) (k : string) (l : list (N * string)) :
  Permutation (Tags.insert_key i k l) ((i, k) :: l).
Proof.
  induction l as [|[j k'] l IH]; simpl; [reflexivity|].
  destruct (i <? j)%N; [reflexivity|]. rewrite IH. apply perm_swap.
Qed.

Lemma Object_keys_perm (tags : Tags.counts) :
  Permutation (Tags.Object_keys tags) (map fst tags).
Proof.
  unfold Tags.Object_keys. induction tags as [|[k n] tags IH]; simpl; [reflexivity|].
  destruct (array_index k).
  - rewrite insert_key_perm. simpl. constructor. exact IH.
  - rewrite <- Permutation_middle. constructor. exact IH.
Qed.

Lemma count_of_key (tags : Tags.counts) (k : string) :
  In k (map fst tags) -> is_Some (Tags.count k tags).
Proof.
  induction tags as [|[k' n] tags IH]; simpl; [tauto|].
  destruct (String.eqb_spec k' k) as [->|Hne]; [eauto|].
  intros [H|H]; [contradiction | apply IH, H].
Qed.

Lemma compare_count_of (tags : Tags.counts) (a b : string) :
  is_Some (Tags.count a tags) -> is_Some (Tags.count b tags) ->
  Tags.compare tags a b = count_of tags b - count_of tags a.
Proof.
  intros [na Ha] [nb Hb]. unfold Tags.compare, count_of. rewrite Ha, Hb. reflexivity.
Qed.

Lemma sort_insert_sorted (tags : Tags.counts) (x : string) (l : list string) :
  is_Some (Tags.count x tags) ->
  Forall (fun y => is_Some (Tags.count y tags)) l ->
  StronglySorted (fun a b => count_of tags b <= count_of tags a) l ->
  StronglySorted (fun a b => count_of tags b <= count_of tags a)
    (Tags.sort_insert (Tags.compare tags) x l).
Proof.
  intros Hx Hl Hs. induction Hs as [|y l Hs IH Hy]; simpl.
  - constructor; constructor.
  - inversion Hl as [|? ? Hy' Hl']; subst.
    rewrite compare_count_of by assumption.
    destruct (Z.leb_spec (count_of tags y - count_of tags x) 0) as [Hle|Hgt].
    + constructor; [constructor; assumption|].
      constructor; [lia|]. eapply List.Forall_impl; [|exact Hy].
      simpl. intros a Ha. lia.
    + constructor; [apply IH, Hl'|].
      rewrite (sort_insert_perm _ x l). constructor; [lia | exact Hy].
Qed.

Lemma sort_insert_filter (tags : Tags.counts) (c : Z) (x : string) (l : list string) :
  is_Some (Tags.count x tags) ->
  Forall (fun y => is_Some (Tags.count y tags)) l ->
  List.filter (fun t => count_of tags t =? c) (Tags.sort_insert (Tags.compare tags) x l)
  = List.filter (fun t => count_of tags t =? c) (x :: l).
Proof.
  intros Hx Hl. induction Hl as [|y l Hy Hl IH]; [reflexivity|].
  simpl Tags.sort_insert. rewrite compare_count_of by assumption.
  destruct (Z.leb_spec (count_of tags y - count_of tags x) 0) as [Hle|Hgt]; [reflexivity|].
  simpl List.filter in *. rewrite IH.
  destruct (Z.eqb_spec (count_of tags y) c) as [Hyc|]; [|reflexivity].
  destruct (Z.eqb_spec (count_of tags x) c) as [Hxc|]; [lia | reflexivity].
Qed.

(** The tags page lists every tag once, by falling count; tags with the same
    count keep the order [Object.keys] gives them; and the list is empty
    exactly when there is no tag (when the page says so). *)
Theorem sortedTags_sorted (tags : Tags.counts) :
  Permutation (Tags.sortedTags tags) (map fst tags)
  /\ StronglySorted (fun a b => count_of tags b <= count_of tags a) (Tags.sortedTags tags)
  /\ (forall c, List.filter (fun t => count_of tags t =? c) (Tags.sortedTags tags)
                = List.filter (fun t => count_of tags t =? c) (Tags.Object_keys tags))
  /\ (Tags.sortedTags tags = [] <-> tags = []).
Proof.
  assert (Hkeys : Forall (fun y => is_Some (Tags.count y tags)) (Tags.Object_keys tags)).
  { apply List.Forall_forall. intros k Hk. apply count_of_key.
    eapply Permutation_in; [apply Object_keys_perm | exact Hk]. }
  assert (Hperm : Permutation (Tags.sortedTags tags) (map fst tags)).
  { unfold Tags.sortedTags. rewrite Array_sort_perm. apply Object_keys_perm. }
  split; [exact Hperm|]. unfold Tags.sortedTags.
  split; [|split].
  - induction Hkeys as [|x l Hx Hl IH]; simpl; [constructor|].
    apply sort_insert_sorted; [exact Hx | | exact IH].
    apply List.Forall_forall. intros y Hy. rewrite List.Forall_forall in Hl. apply Hl.
    eapply Permutation_in; [apply Array_sort_perm | exact Hy].
  - intros c. induction Hkeys as [|x l Hx Hl IH]; [reflexivity|].
    simpl Tags.Array_sort. rewrite sort_insert_filter; [| exact Hx |].
    + simpl. rewrite IH. reflexivity.
    + apply List.Forall_forall. intros y Hy. rewrite List.Forall_forall in Hl. apply Hl.
      eapply Permutation_in; [apply Array_sort_perm | exact Hy].
  - fold (Tags.sortedTags tags). split.
    + intros H. rewrite H in Hperm. apply Permutation_nil in Hperm.
      destruct tags; [reflexivity | discriminate].
    + intros ->. reflexivity.
Qed.

(** ** The further properties on examples *)

Lemma send_wire_format_of_a_404 :
  let r := Response.with_statusCode 404
             (Response.set "X-Powered-By" (VStr "inexpress") (Response.new fresh_socket)) in
  wire (Response.sock (Response.send (Text "gone") r))
  = wire (Response.sock r)
    +:+ (Response.version r +:+ " " +:+ Number_toString (Response.statusCode r)
         +:+ " " +:+ reason_phrase (Response.statusCode r) +:+ CRLF)
    +:+ concat_strings
          (map header_line
             (Object_entries (Response.headers (Response.send (Text "gone") r))))
    +:+ CRLF +:+ payload_bytes (Text "gone").
Proof.
  intros r. apply (send_wire_format (Text "gone") r); [reflexivity | left; discriminate].
Defined.

Lemma route_key_injective_on_gallery :
  toUpperCase "get" = toUpperCase "GET"
  /\ normalizePath (fun _ => false) (Some "/Gallery/")
     = normalizePath (fun _ => false) (Some "/gallery").
Proof.
  apply (route_key_injective (fun _ => false) "get" "GET" (Some "/Gallery/")
           (Some "/gallery") "GET /gallery"); reflexivity.
Defined.

Lemma only_get_requests_reach_handlers_post :
  let home : handler := fun _ res => Ok (Response.send (Text "home") res) in
  let req := Request.constructor "POST / HTTP/1.1" in
  let res := Response.new fresh_socket in
  exists app,
    get_all (fun _ => false) [("/", home)] App_new = Ok app
    /\ processRoutes (fun _ => false) app req res
       = Ok (Response.send (Text "Page not found") (Response.assign_status 404 res)).
Proof.
  intros home req res. eexists. split; [reflexivity|].
  apply (only_get_requests_reach_handlers (fun _ => false) [("/", home)] _ req res
           "POST" ""); try reflexivity.
  discriminate.
Defined.

Lemma pathless_request_reaches_root_bare_get :
  let home : handler := fun _ res => Ok (Response.send (Text "home") res) in
  let res := Response.new fresh_socket in
  exists app',
    get (fun _ => true) "/" home App_new = Ok app'
    /\ Request.path (Request.constructor "get") = None
    /\ processRoutes (fun _ => true) app' (Request.constructor "get") res
       = home (Request.constructor "get") res.
Proof.
  intros home res. eexists. split; [reflexivity|].
  apply (pathless_request_reaches_root (fun _ => true) App_new _ home "get" res);
    reflexivity.
Defined.

Lemma normalized_path_canonical_with_space :
  normalizePath (fun _ => false) (Some "/Foo Bar/?x=1") = Ok "/foo%20bar"
  /\ all_chars path_char "/foo%20bar" = true
  /\ toLowerCase "/foo%20bar" = "/foo%20bar"
  /\ ("/foo%20bar" = "" \/ starts_with_slash "/foo%20bar" = true).
Proof.
  split; [reflexivity|].
  apply (normalized_path_canonical (fun _ => false) (Some "/Foo Bar/?x=1") "/foo%20bar").
  reflexivity.
Defined.

Lemma query_and_fragment_ignored_on_gallery :
  normalizePath (fun _ => false) (Some ("/gallery" +:+ String "?" "page=2#top"))
  = normalizePath (fun _ => false) (Some "/gallery").
Proof.
  apply (query_and_fragment_ignored (fun _ => false) "/gallery" "page=2#top" "?");
    reflexivity.
Defined.

Lemma path_case_ignored_on_gallery :
  normalizePath (fun _ => false) (Some "/Gallery/Cats")
  = normalizePath (fun _ => false) (Some "/gALLERY/cATS").
Proof.
  apply (path_case_ignored (fun _ => false) "/Gallery/Cats" "/gALLERY/cATS");
    reflexivity.
Defined.

Lemma trailing_slash_ignored_on_gallery :
  normalizePath (fun _ => false) (Some ("/gallery" +:+ "/"))
  = normalizePath (fun _ => false) (Some "/gallery").
Proof.
  apply (trailing_slash_ignored (fun _ => false) "/gallery"); reflexivity.
Defined.

Lemma static_serves_outside_base_secret :
  let fs : FileSystem :=
    fun p => if String.eqb p "secret.txt" then Some "s3cret" else None in
  let res := Response.new fresh_socket in
  let req := Request.constructor ("GET /../" +:+ "secret.txt" +:+ " HTTP/1.1") in
  path_posix_join "public" (Request.path req) = Ok "secret.txt"
  /\ serveStatic fs "public" req res (fun _ => Throw ERR_INVALID_URL)
     = Ok (Response.send (Buffer "s3cret")
             (Response.set "Content-Type" (getMIMEType "secret.txt") res)).
Proof.
  intros fs res req.
  apply (static_serves_outside_base fs "public" "secret.txt" "s3cret" res
           (fun _ => Throw ERR_INVALID_URL)); reflexivity.
Defined.

Lemma static_throws_on_pathless_request_bare_get :
  handleRequest (fun _ => false)
    (use (serveStatic (fun _ => None) "public") App_new) fresh_socket "GET"
  = Throw ERR_INVALID_ARG_TYPE.
Proof.
  apply (static_throws_on_pathless_request (fun _ => false) (fun _ => None) "public"
           App_new fresh_socket "GET"). reflexivity.
Defined.

Lemma request_bytes_reach_handler_gallery :
  let home : handler := fun _ res => Ok (Response.send (Text "home") res) in
  let gallery : handler := fun _ res => Ok (Response.send (Text "gallery") res) in
  exists app,
    get_all (fun _ => false) ([("/", home)] ++ ("/Gallery/", gallery) :: []) App_new = Ok app
    /\ handleRequest (fun _ => false) app fresh_socket "get /gallery?page=2 HTTP/1.1"
       = gallery {| Request.method := Some "get"; Request.path := Some "/gallery?page=2";
                    Request.others := split " " "HTTP/1.1" |} (Response.new fresh_socket).
Proof.
  intros home gallery. eexists. split; [reflexivity|].
  apply (request_bytes_reach_handler (fun _ => false) _ [("/", home)] [] "/Gallery/"
           gallery fresh_socket "get /gallery?page=2 HTTP/1.1" "get" "/gallery?page=2"
           "HTTP/1.1"); try reflexivity.
  constructor.
Defined.
